(** * BPR questionnaire assistant (src/app.py): session state machine

    A shallow embedding of the Streamlit script [src/app.py]: the session
    store, the classifier adapter [validate_response], the screens of
    [main] and their button handlers, and the exported report.

    Conventions of the embedding.
    - A Python [str] is the list of its Unicode code points ([pystr]).
    - [st.session_state] is a record; a dict is a [gmap], a set a [gset],
      a list a [list]; a failed lookup that raises [KeyError], [IndexError]
      or [TypeError] in Python makes the run return [None].
    - One execution of the script is one call of [main]: it receives the
      widget event of that run (at most one button, with the value of the
      text area next to it) and what the outside world answers during the
      run (the clock, the contents of bpr.json, the reply of the language
      model).  [st.rerun()] ends the run; the run after it is a call of
      [main] without a click. *)

From Stdlib Require Import List NArith Ascii String Lia Bool.
From stdpp Require Import base option list gmap sets.

Set Default Proof Using "Type".
Set Warnings "-register-all,-clear-no-such-hyp".
Local Open Scope N_scope.
Local Open Scope nat_scope.
Local Open Scope list_scope.

(** ** Python strings *)

Module Py.

Definition pystr : Type := list N.

(** An ASCII literal as a Python string. *)
Definition lit (s : string) : pystr :=
  List.map N_of_ascii (list_ascii_of_string s).

Definition nl : N := 10%N.

(** [str.isspace] on one code point (CPython's [_PyUnicode_IsWhitespace]). *)
Definition isspace (c : N) : bool :=
  ((9 <=? c) && (c <=? 13) || (28 <=? c) && (c <=? 32)
   || (c =? 133) || (c =? 160) || (c =? 5760)
   || (8192 <=? c) && (c <=? 8202)
   || (c =? 8232) || (c =? 8233) || (c =? 8239) || (c =? 8287)
   || (c =? 12288))%N.

Fixpoint lstrip_by (p : N -> bool) (s : pystr) : pystr :=
  match s with
  | c :: s' => if p c then lstrip_by p s' else s
  | [] => []
  end.

Definition rstrip_by (p : N -> bool) (s : pystr) : pystr :=
  rev (lstrip_by p (rev s)).

Definition strip_by (p : N -> bool) (s : pystr) : pystr :=
  rstrip_by p (lstrip_by p s).

(** [s.strip()] *)
Definition strip (s : pystr) : pystr := strip_by isspace s.

Definition mem_char (c : N) (chars : pystr) : bool :=
  existsb (N.eqb c) chars.

(** [s.strip(chars)] *)
Definition strip_chars (chars s : pystr) : pystr :=
  strip_by (fun c => mem_char c chars) s.

(** [s.startswith(prefix)] *)
Fixpoint startswith (prefix s : pystr) : bool :=
  match prefix, s with
  | [], _ => true
  | p :: prefix', c :: s' => (p =? c)%N && startswith prefix' s'
  | _ :: _, [] => false
  end.

(** The part of [s] after the first occurrence of [sep]:
    [s.split(sep, 1)[1]], an [IndexError] when [sep] does not occur. *)
Fixpoint after_first (sep s : pystr) : option pystr :=
  if startswith sep s then Some (skipn (length sep) s)
  else match s with
       | [] => None
       | _ :: s' => after_first sep s'
       end.

(** [s.split('\n')] *)
Fixpoint split_lines (s : pystr) : list pystr :=
  match s with
  | [] => [[]]
  | c :: s' =>
      if (c =? nl)%N then [] :: split_lines s'
      else match split_lines s' with
           | l :: ls => (c :: l) :: ls
           | [] => [[c]]
           end
  end.

(** Truth value of a string: [if s:] *)
Definition truthy (s : pystr) : bool :=
  match s with [] => false | _ :: _ => true end.

End Py.

Import Py.

(** ** JSON values, as [json.loads] produces them

    A number is kept as it is written; an object is the list of its
    members in the order of the text. *)

Inductive json : Type :=
  | JNull
  | JBool (b : bool)
  | JNumber (lexeme : pystr)
  | JString (s : pystr)
  | JArray (items : list json)
  | JObject (members : list (pystr * json)).

(** [isinstance(v, list)] with the list's items. *)
Definition as_list (v : json) : option (list json) :=
  match v with
  | JArray items => Some items
  | _ => None
  end.

(** *** A decoder for JSON text

    [json.loads] belongs to the Python library.  The program is embedded
    over an arbitrary decoder (a parameter of the sections below); the
    function here follows the scanner of Python's [json] module and is the
    decoder the concrete runs at the end of the file use. *)

Module Decoder.

Definition json_ws (c : N) : bool :=
  ((c =? 32) || (c =? 9) || (c =? 10) || (c =? 13))%N.

Definition skip_ws (s : pystr) : pystr := lstrip_by json_ws s.

Definition is_digit (c : N) : bool := ((48 <=? c) && (c <=? 57))%N.

Fixpoint span_digits (s : pystr) : pystr * pystr :=
  match s with
  | c :: s' =>
      if is_digit c then let '(ds, r) := span_digits s' in (c :: ds, r)
      else ([], s)
  | [] => ([], [])
  end.

Definition hexval (c : N) : option N :=
  (if (48 <=? c) && (c <=? 57) then Some (c - 48)
   else if (97 <=? c) && (c <=? 102) then Some (c - 87)
   else if (65 <=? c) && (c <=? 70) then Some (c - 55)
   else None)%N.

(** Four hexadecimal digits of a [\uXXXX] escape. *)
Definition hex4 (s : pystr) : option (N * pystr) :=
  match s with
  | a :: b :: c :: d :: r =>
      match hexval a, hexval b, hexval c, hexval d with
      | Some x, Some y, Some z, Some w =>
          Some (((x * 16 + y) * 16 + z) * 16 + w, r)%N
      | _, _, _, _ => None
      end
  | _ => None
  end.

Definition unescape (c : N) : option N :=
  (if c =? 34 then Some 34 else if c =? 92 then Some 92
   else if c =? 47 then Some 47 else if c =? 98 then Some 8
   else if c =? 102 then Some 12 else if c =? 110 then Some 10
   else if c =? 114 then Some 13 else if c =? 116 then Some 9
   else None)%N.

(** The body of a string, after the opening quote (strict mode: a control
    character ends the decoding with an error). *)
Fixpoint scan_string (fuel : nat) (s acc : pystr) : option (pystr * pystr) :=
  match fuel with
  | O => None
  | S fuel' =>
      match s with
      | [] => None
      | c :: r =>
          if (c =? 34)%N then Some (rev acc, r)
          else if (c =? 92)%N then
            match r with
            | [] => None
            | e :: r' =>
                if (e =? 117)%N then
                  match hex4 r' with
                  | None => None
                  | Some (u, r2) =>
                      let single := scan_string fuel' r2 (u :: acc) in
                      if ((55296 <=? u) && (u <=? 56319))%N then
                        match r2 with
                        | b :: x :: r3 =>
                            if ((b =? 92) && (x =? 117))%N then
                              match hex4 r3 with
                              | None => None
                              | Some (u2, r4) =>
                                  if ((56320 <=? u2) && (u2 <=? 57343))%N then
                                    scan_string fuel' r4
                                      ((65536 + ((u - 55296) * 1024
                                                 + (u2 - 56320)))%N :: acc)
                                  else single
                              end
                            else single
                        | _ => single
                        end
                      else single
                  end
                else
                  match unescape e with
                  | Some d => scan_string fuel' r' (d :: acc)
                  | None => None
                  end
            end
          else if (c <? 32)%N then None
          else scan_string fuel' r (c :: acc)
      end
  end.

(** A number: an optional minus sign, an integer part without leading
    zero, an optional fraction and an optional exponent. *)
Definition scan_number (s : pystr) : option (pystr * pystr) :=
  let '(sign, s1) :=
    match s with
    | c :: r => if (c =? 45)%N then ([c], r) else ([], s)
    | [] => ([], s)
    end in
  let int_part :=
    match s1 with
    | c :: r =>
        if (c =? 48)%N then Some ([c], r)
        else if is_digit c then Some (span_digits s1)
        else None
    | [] => None
    end in
  match int_part with
  | None => None
  | Some (ds, s2) =>
      let '(frac, s3) :=
        match s2 with
        | c :: r =>
            if (c =? 46)%N then
              match span_digits r with
              | ([], _) => ([], s2)
              | (fs, r') => (c :: fs, r')
              end
            else ([], s2)
        | [] => ([], s2)
        end in
      let '(expo, s4) :=
        match s3 with
        | c :: r =>
            if ((c =? 101) || (c =? 69))%N then
              let '(sg, r1) :=
                match r with
                | g :: r' =>
                    if ((g =? 43) || (g =? 45))%N then ([g], r') else ([], r)
                | [] => ([], r)
                end in
              match span_digits r1 with
              | ([], _) => ([], s3)
              | (es, r2) => (c :: sg ++ es, r2)
              end
            else ([], s3)
        | [] => ([], s3)
        end in
      Some (sign ++ ds ++ frac ++ expo, s4)
  end.

Definition keyword (k : string) (v : json) (s : pystr) : option (json * pystr) :=
  if startswith (lit k) s then Some (v, skipn (length (lit k)) s) else None.

Fixpoint scan_once (fuel : nat) (s : pystr) : option (json * pystr) :=
  match fuel with
  | O => None
  | S fuel' =>
      match s with
      | [] => None
      | c :: r =>
          if (c =? 34)%N then
            match scan_string (S (length r)) r [] with
            | Some (str, r') => Some (JString str, r')
            | None => None
            end
          else if (c =? 123)%N then
            match skip_ws r with
            | d :: r' =>
                if (d =? 125)%N then Some (JObject [], r')
                else scan_members fuel' (d :: r') []
            | [] => None
            end
          else if (c =? 91)%N then
            match skip_ws r with
            | d :: r' =>
                if (d =? 93)%N then Some (JArray [], r')
                else scan_items fuel' (d :: r') []
            | [] => None
            end
          else if startswith (lit "null") s then keyword "null" JNull s
          else if startswith (lit "true") s then keyword "true" (JBool true) s
          else if startswith (lit "false") s then keyword "false" (JBool false) s
          else
            match scan_number s with
            | Some (lexeme, r') => Some (JNumber lexeme, r')
            | None =>
                if startswith (lit "NaN") s then
                  keyword "NaN" (JNumber (lit "NaN")) s
                else if startswith (lit "Infinity") s then
                  keyword "Infinity" (JNumber (lit "Infinity")) s
                else keyword "-Infinity" (JNumber (lit "-Infinity")) s
            end
      end
  end

with scan_items (fuel : nat) (s : pystr) (acc : list json)
  : option (json * pystr) :=
  match fuel with
  | O => None
  | S fuel' =>
      match scan_once fuel' s with
      | None => None
      | Some (v, r) =>
          match skip_ws r with
          | c :: r' =>
              if (c =? 93)%N then Some (JArray (rev (v :: acc)), r')
              else if (c =? 44)%N then scan_items fuel' (skip_ws r') (v :: acc)
              else None
          | [] => None
          end
      end
  end

with scan_members (fuel : nat) (s : pystr) (acc : list (pystr * json))
  : option (json * pystr) :=
  match fuel with
  | O => None
  | S fuel' =>
      match s with
      | q :: r =>
          if (q =? 34)%N then
            match scan_string (S (length r)) r [] with
            | None => None
            | Some (key, r1) =>
                match skip_ws r1 with
                | c :: r2 =>
                    if (c =? 58)%N then
                      match scan_once fuel' (skip_ws r2) with
                      | None => None
                      | Some (v, r3) =>
                          match skip_ws r3 with
                          | d :: r4 =>
                              if (d =? 125)%N then
                                Some (JObject (rev ((key, v) :: acc)), r4)
                              else if (d =? 44)%N then
                                scan_members fuel' (skip_ws r4) ((key, v) :: acc)
                              else None
                          | [] => None
                          end
                      end
                    else None
                | [] => None
                end
            end
          else None
      | [] => None
      end
  end.

(** [json.loads(s)]; [None] stands for the exception it raises. *)
Definition json_loads (s : pystr) : option json :=
  if startswith [65279%N] s then None
  else
    match scan_once (2 * length s + 2) (skip_ws s) with
    | Some (v, r) =>
        match skip_ws r with
        | [] => Some v
        | _ :: _ => None
        end
    | None => None
    end.

End Decoder.


(** ** The data of a session *)

(** A question of the bank: the keys ['question'], ['context'],
    ['category'] of its dict, and the flag [save_response] writes under
    ['answered'] ([q.get('answered', False)]: absent reads as [false]). *)
Record Question : Type := {
  q_question : pystr;
  q_context : option pystr;
  q_category : option pystr;
  q_answered : bool
}.

Definition mark_answered (q : Question) : Question :=
  {| q_question := q_question q; q_context := q_context q;
     q_category := q_category q; q_answered := true |}.

(** One collected follow-up: [{"question": ..., "answer": ...}].  The
    question is an item of the list the classifier returned, a JSON value. *)
Record FollowupAnswer : Type := {
  fa_question : json;
  fa_answer : pystr
}.

(** A saved response: the keys ['answer'], ['followup'], ['timestamp']. *)
Record Response : Type := {
  answer : pystr;
  followup : list FollowupAnswer;
  timestamp : pystr
}.

(** The keys of [st.session_state] that [initialize_session_state] sets
    (['section_progress'] is set to an empty dict there and never used
    again; it is left out). *)
Record SessionState : Type := {
  sections : gmap pystr (list Question);
  current_section : pystr;
  current_question_index : nat;
  responses : gmap pystr (gmap nat Response);
  completed_sections : gset pystr;
  followup_mode : bool;
  followup_questions : list json;
  followup_answers : list FollowupAnswer;
  current_followup_index : nat;
  original_answer : pystr;
  editing_mode : bool;
  editing_question : option (pystr * nat)
}.

Definition set_sections (v : gmap pystr (list Question)) (s : SessionState) : SessionState :=
  {| sections := v;
     current_section := current_section s;
     current_question_index := current_question_index s;
     responses := responses s;
     completed_sections := completed_sections s;
     followup_mode := followup_mode s;
     followup_questions := followup_questions s;
     followup_answers := followup_answers s;
     current_followup_index := current_followup_index s;
     original_answer := original_answer s;
     editing_mode := editing_mode s;
     editing_question := editing_question s |}.

Definition set_current_section (v : pystr) (s : SessionState) : SessionState :=
  {| sections := sections s;
     current_section := v;
     current_question_index := current_question_index s;
     responses := responses s;
     completed_sections := completed_sections s;
     followup_mode := followup_mode s;
     followup_questions := followup_questions s;
     followup_answers := followup_answers s;
     current_followup_index := current_followup_index s;
     original_answer := original_answer s;
     editing_mode := editing_mode s;
     editing_question := editing_question s |}.

Definition set_current_question_index (v : nat) (s : SessionState) : SessionState :=
  {| sections := sections s;
     current_section := current_section s;
     current_question_index := v;
     responses := responses s;
     completed_sections := completed_sections s;
     followup_mode := followup_mode s;
     followup_questions := followup_questions s;
     followup_answers := followup_answers s;
     current_followup_index := current_followup_index s;
     original_answer := original_answer s;
     editing_mode := editing_mode s;
     editing_question := editing_question s |}.

Definition set_responses (v : gmap pystr (gmap nat Response)) (s : SessionState) : SessionState :=
  {| sections := sections s;
     current_section := current_section s;
     current_question_index := current_question_index s;
     responses := v;
     completed_sections := completed_sections s;
     followup_mode := followup_mode s;
     followup_questions := followup_questions s;
     followup_answers := followup_answers s;
     current_followup_index := current_followup_index s;
     original_answer := original_answer s;
     editing_mode := editing_mode s;
     editing_question := editing_question s |}.

Definition set_completed_sections (v : gset pystr) (s : SessionState) : SessionState :=
  {| sections := sections s;
     current_section := current_section s;
     current_question_index := current_question_index s;
     responses := responses s;
     completed_sections := v;
     followup_mode := followup_mode s;
     followup_questions := followup_questions s;
     followup_answers := followup_answers s;
     current_followup_index := current_followup_index s;
     original_answer := original_answer s;
     editing_mode := editing_mode s;
     editing_question := editing_question s |}.

Definition set_followup_mode (v : bool) (s : SessionState) : SessionState :=
  {| sections := sections s;
     current_section := current_section s;
     current_question_index := current_question_index s;
     responses := responses s;
     completed_sections := completed_sections s;
     followup_mode := v;
     followup_questions := followup_questions s;
     followup_answers := followup_answers s;
     current_followup_index := current_followup_index s;
     original_answer := original_answer s;
     editing_mode := editing_mode s;
     editing_question := editing_question s |}.

Definition set_followup_questions (v : list json) (s : SessionState) : SessionState :=
  {| sections := sections s;
     current_section := current_section s;
     current_question_index := current_question_index s;
     responses := responses s;
     completed_sections := completed_sections s;
     followup_mode := followup_mode s;
     followup_questions := v;
     followup_answers := followup_answers s;
     current_followup_index := current_followup_index s;
     original_answer := original_answer s;
     editing_mode := editing_mode s;
     editing_question := editing_question s |}.

Definition set_followup_answers (v : list FollowupAnswer) (s : SessionState) : SessionState :=
  {| sections := sections s;
     current_section := current_section s;
     current_question_index := current_question_index s;
     responses := responses s;
     completed_sections := completed_sections s;
     followup_mode := followup_mode s;
     followup_questions := followup_questions s;
     followup_answers := v;
     current_followup_index := current_followup_index s;
     original_answer := original_answer s;
     editing_mode := editing_mode s;
     editing_question := editing_question s |}.

Definition set_current_followup_index (v : nat) (s : SessionState) : SessionState :=
  {| sections := sections s;
     current_section := current_section s;
     current_question_index := current_question_index s;
     responses := responses s;
     completed_sections := completed_sections s;
     followup_mode := followup_mode s;
     followup_questions := followup_questions s;
     followup_answers := followup_answers s;
     current_followup_index := v;
     original_answer := original_answer s;
     editing_mode := editing_mode s;
     editing_question := editing_question s |}.

Definition set_original_answer (v : pystr) (s : SessionState) : SessionState :=
  {| sections := sections s;
     current_section := current_section s;
     current_question_index := current_question_index s;
     responses := responses s;
     completed_sections := completed_sections s;
     followup_mode := followup_mode s;
     followup_questions := followup_questions s;
     followup_answers := followup_answers s;
     current_followup_index := current_followup_index s;
     original_answer := v;
     editing_mode := editing_mode s;
     editing_question := editing_question s |}.

Definition set_editing_mode (v : bool) (s : SessionState) : SessionState :=
  {| sections := sections s;
     current_section := current_section s;
     current_question_index := current_question_index s;
     responses := responses s;
     completed_sections := completed_sections s;
     followup_mode := followup_mode s;
     followup_questions := followup_questions s;
     followup_answers := followup_answers s;
     current_followup_index := current_followup_index s;
     original_answer := original_answer s;
     editing_mode := v;
     editing_question := editing_question s |}.

Definition set_editing_question (v : option (pystr * nat)) (s : SessionState) : SessionState :=
  {| sections := sections s;
     current_section := current_section s;
     current_question_index := current_question_index s;
     responses := responses s;
     completed_sections := completed_sections s;
     followup_mode := followup_mode s;
     followup_questions := followup_questions s;
     followup_answers := followup_answers s;
     current_followup_index := current_followup_index s;
     original_answer := original_answer s;
     editing_mode := editing_mode s;
     editing_question := v |}.

(** [st.session_state] between two runs: either every key above is set, or
    none is except possibly ['sections'] (a new session, or the store after
    the keys were deleted). *)
Inductive Store : Type :=
  | Unset (kept : option (gmap pystr (list Question)))
  | Keys (s : SessionState).

(** What the outside world supplies to one run of the script: whether the
    API key is configured, what [load_questions_from_json] finds, what
    [model.generate_content(prompt)] and [response.text] do if the run
    calls the model (an exception, or a text), and the time
    [datetime.now().isoformat()] reads. *)
Inductive Reply : Type :=
  | Raises
  | Text (t : pystr).

Record World : Type := {
  api_key : bool;
  bpr_json : gmap pystr (list Question);
  reply : Reply;
  now : pystr
}.

(** The button clicked in a run, with the text of the area it reads. *)
Inductive Click : Type :=
  | Start (section_name : pystr)
  | SubmitAnswer (user_answer : pystr)
  | Skip
  | BackToSections
  | Next (followup_answer : pystr)
  | UseOriginal
  | AcceptFinal
  | StartOver
  | SaveChanges (new_answer : pystr)
  | CancelEdit
  | Edit (section_name : pystr) (q_index : nat)
  | StartNew
  | Continue.

(** One entry of the exported report ([response_data]); the last two keys
    are set only when the question has a response. *)
Record ReportEntry : Type := {
  r_question : pystr;
  r_context : option pystr;
  r_category : pystr;
  r_answer : pystr;
  r_followup_clarifications : option (list FollowupAnswer);
  r_timestamp : option pystr
}.

Record Report : Type := {
  questionnaire_responses : gmap pystr (list ReportEntry);
  completion_date : pystr;
  total_questions : nat
}.

(** What a run does towards the outside, in order: the call of the model
    ([Generate], with the parts of the prompt), the notices of [st.error],
    [st.warning] and [st.success], the follow-up question asked, the
    combined answer shown, the report offered for download. *)
Inductive Level : Type := LError | LWarning | LSuccess.

Inductive Output : Type :=
  | Generate (question user_answer : pystr) (context : option pystr)
  | Notice (l : Level)
  | Ask (followup_question : json)
  | FinalCombined (combined_answer : pystr)
  | Download (r : Report).

(** ** The program *)

Section Program.

(** [json.loads], with [None] when it raises; and Python's text of a value
    that is not a string, as an f-string formats it. *)
Variable json_loads : pystr -> option json.
Variable format_value : json -> pystr.

(** [f"{v}"] *)
Definition fstr (v : json) : pystr :=
  match v with
  | JString s => s
  | _ => format_value v
  end.

(** *** configure_gemini, validate_response *)

Definition configure_gemini (w : World) : option Reply * list Output :=
  if api_key w then (Some (reply w), []) else (None, [Notice LError]).

Definition ADEQUATE : pystr := lit "ADEQUATE".
Definition NEEDS_FOLLOWUP : pystr := lit "NEEDS_FOLLOWUP".

(** The characters of the literal passed to [line.strip]: a dash, a space,
    a double quote, the two brackets and a comma. *)
Definition strip_set : pystr := [45; 32; 34; 91; 93; 44; 34]%N.

Definition question_mark : N := 63%N.

(** The [except] branch of the follow-up parsing (lines 102 to 110). *)
Definition fallback_questions (response_text : pystr) : list json :=
  let lines := split_lines response_text in
  let questions :=
    fold_left
      (fun (questions : list json) (line : pystr) =>
         let line := strip line in
         if truthy line && mem_char question_mark line then
           let question := strip_chars strip_set line in
           if truthy question then questions ++ [JString question]
           else questions
         else questions)
      (tail lines) [] in
  firstn 2 questions.

Definition validate_response (model : option Reply)
    (question user_answer : pystr) (context : option pystr)
  : (bool * list json) * list Output :=
  match model with
  | None => ((true, []), [])
  | Some r =>
      let call := Generate question user_answer context in
      match r with
      | Raises => ((true, []), [call; Notice LError])
      | Text t =>
          let response_text := strip t in
          if startswith ADEQUATE response_text then ((true, []), [call])
          else if startswith NEEDS_FOLLOWUP response_text then
            match after_first NEEDS_FOLLOWUP response_text
                  ≫= (fun part => json_loads (strip part)) with
            | Some followup_questions =>
                ((false, default [] (as_list followup_questions)), [call])
            | None => ((false, fallback_questions response_text), [call])
            end
          else ((true, []), [call])
      end
  end.

(** *** load_questions_from_json, initialize_session_state, save_response,
    reset_followup_state *)

(** The sections read from bpr.json in this run; the empty dict when the
    file is missing or is not JSON. *)
Definition load_questions_from_json (w : World)
  : gmap pystr (list Question) :=
  bpr_json w.

Definition initialize_session_state (st : Store) : SessionState :=
  match st with
  | Keys s => s
  | Unset kept =>
      {| sections := default ∅ kept;
         current_section := [];
         current_question_index := 0;
         responses := ∅;
         completed_sections := ∅;
         followup_mode := false;
         followup_questions := [];
         followup_answers := [];
         current_followup_index := 0;
         original_answer := [];
         editing_mode := false;
         editing_question := None |}
  end.

Definition save_response (timestamp : pystr) (section : pystr)
    (question_index : nat) (answer : pystr)
    (followup_data : option (list FollowupAnswer)) (s : SessionState)
  : option SessionState :=
  let of_section := default ∅ (responses s !! section) in
  let entry :=
    {| answer := answer;
       followup := default [] followup_data;
       timestamp := timestamp |} in
  let s1 :=
    set_responses
      (<[section := <[question_index := entry]> of_section]> (responses s)) s in
  questions ← sections s1 !! section;
  q ← questions !! question_index;
  Some (set_sections
          (<[section := <[question_index := mark_answered q]> questions]>
             (sections s1)) s1).

Definition reset_followup_state (s : SessionState) : SessionState :=
  set_original_answer []
    (set_current_followup_index 0
       (set_followup_answers []
          (set_followup_questions []
             (set_followup_mode false s)))).

(** *** display_progress_sidebar *)

Definition section_answered (questions : list Question) : nat :=
  length (List.filter q_answered questions).

Definition section_done (questions : list Question) : Prop :=
  section_answered questions = length questions.

(** The names the loop adds to [completed_sections]. *)
Definition done_sections (secs : gmap pystr (list Question)) : gset pystr :=
  dom (filter (fun kv => section_done kv.2) secs).

Definition display_progress_sidebar (s : SessionState) : SessionState :=
  set_completed_sections (completed_sections s ∪ done_sections (sections s)) s.

(** *** display_section_selection *)

Definition unanswered (q : Question) : Prop := q_answered q = false.

(** The loop of lines 317 to 320: position of the first question whose
    flag is not set. *)
Definition first_unanswered (questions : list Question) : option nat :=
  fst <$> list_find unanswered questions.

Definition display_section_selection (click : option Click) (s : SessionState)
  : option (Store * list Output) :=
  let incomplete_sections := dom (sections s) ∖ completed_sections s in
  if bool_decide (incomplete_sections = ∅) then Some (Keys s, [Notice LSuccess])
  else
    match click with
    | Some (Start section_name) =>
        if bool_decide (section_name ∈ incomplete_sections) then
          questions ← sections s !! section_name;
          let s1 := set_current_section section_name s in
          let s2 :=
            match first_unanswered questions with
            | Some i => set_current_question_index i s1
            | None => s1
            end in
          Some (Keys s2, [])
        else Some (Keys s, [])
    | _ => Some (Keys s, [])
    end.

(** *** display_main_question_interface *)

Definition Skipped : pystr := lit "Skipped".

Definition display_main_question_interface (timestamp : pystr)
    (model : option Reply) (section : pystr) (q_index : nat)
    (question : Question) (click : option Click) (s : SessionState)
  : option (Store * list Output) :=
  match click with
  | Some (SubmitAnswer user_answer) =>
      if truthy (strip user_answer) then
        let '((is_adequate, followup_questions), out) :=
          validate_response model (q_question question) user_answer
            (q_context question) in
        if is_adequate then
          s1 ← save_response timestamp section q_index (strip user_answer) None s;
          Some (Keys (set_current_question_index
                        (current_question_index s1 + 1) s1),
                out ++ [Notice LSuccess])
        else
          Some (Keys (set_original_answer (strip user_answer)
                        (set_current_followup_index 0
                           (set_followup_answers []
                              (set_followup_questions followup_questions
                                 (set_followup_mode true s))))),
                out)
      else Some (Keys s, [Notice LWarning])
  | Some Skip =>
      s1 ← save_response timestamp section q_index Skipped None s;
      Some (Keys (set_current_question_index (current_question_index s1 + 1) s1),
            [])
  | Some BackToSections =>
      Some (Keys (set_followup_mode false (set_current_section [] s)), [])
  | _ => Some (Keys s, [])
  end.

(** *** display_followup_interface

    The source passes [model] and [question] as well; the function uses
    neither. *)

(** The marker in front of each detail line, as the source file has it. *)
Definition bullet : pystr := [8218; 196; 162]%N.

Definition details_header : pystr := [nl; nl] ++ lit "Additional Details:" ++ [nl].

Definition detail_line (fa : FollowupAnswer) : pystr :=
  bullet ++ lit " " ++ fstr (fa_question fa) ++ lit ": " ++ fa_answer fa ++ [nl].

(** Lines 424 to 426. *)
Definition combined_answer (original_answer : pystr)
    (followup_answers : list FollowupAnswer) : pystr :=
  fold_left (fun combined fa => combined ++ detail_line fa)
    followup_answers (original_answer ++ details_header).

Definition display_followup_interface (timestamp : pystr)
    (section : pystr) (q_index : nat) (click : option Click) (s : SessionState)
  : option (Store * list Output) :=
  let i := current_followup_index s in
  if bool_decide (i < length (followup_questions s)) then
    current_followup ← followup_questions s !! i;
    match click with
    | Some (Next followup_answer) =>
        if truthy (strip followup_answer) then
          let fa := {| fa_question := current_followup;
                       fa_answer := strip followup_answer |} in
          Some (Keys (set_current_followup_index (i + 1)
                        (set_followup_answers (followup_answers s ++ [fa]) s)),
                [Ask current_followup])
        else Some (Keys s, [Ask current_followup; Notice LWarning])
    | Some UseOriginal =>
        s1 ← save_response timestamp section q_index (original_answer s) None s;
        let s2 := reset_followup_state s1 in
        Some (Keys (set_current_question_index (current_question_index s2 + 1) s2),
              [Ask current_followup])
    | _ => Some (Keys s, [Ask current_followup])
    end
  else
    let combined := combined_answer (original_answer s) (followup_answers s) in
    match click with
    | Some AcceptFinal =>
        let followup_data := followup_answers s in
        s1 ← save_response timestamp section q_index combined (Some followup_data) s;
        let s2 := reset_followup_state s1 in
        Some (Keys (set_current_question_index (current_question_index s2 + 1) s2),
              [FinalCombined combined])
    | Some StartOver =>
        Some (Keys (reset_followup_state s), [FinalCombined combined])
    | _ => Some (Keys s, [FinalCombined combined])
    end.

(** *** display_editing_interface *)

Definition display_editing_interface (timestamp : pystr)
    (click : option Click) (s : SessionState)
  : option (Store * list Output) :=
  '(edit_section, edit_q_index) ← editing_question s;
  questions ← sections s !! edit_section;
  question ← questions !! edit_q_index;
  of_section ← responses s !! edit_section;
  current_response ← of_section !! edit_q_index;
  match click with
  | Some (SaveChanges new_answer) =>
      if truthy (strip new_answer) then
        let edited :=
          {| answer := strip new_answer;
             followup := followup current_response;
             timestamp := timestamp |} in
        Some (Keys (set_editing_question None
                      (set_editing_mode false
                         (set_responses
                            (<[edit_section := <[edit_q_index := edited]> of_section]>
                               (responses s)) s))),
              [Notice LSuccess])
      else Some (Keys s, [Notice LWarning])
  | Some CancelEdit =>
      Some (Keys (set_editing_question None (set_editing_mode false s)), [])
  | _ => Some (Keys s, [])
  end.

(** *** display_summary *)

Definition Not_answered : pystr := lit "Not answered".

Definition response_data (section_name : pystr) (question : Question)
    (response : option Response) : ReportEntry :=
  {| r_question := q_question question;
     r_context := q_context question;
     r_category := default section_name (q_category question);
     r_answer :=
       match response with
       | Some r => answer r
       | None => Not_answered
       end;
     r_followup_clarifications := followup <$> response;
     r_timestamp := timestamp <$> response |}.

(** [section_responses] of lines 558 to 579. *)
Definition section_responses (all : gmap pystr (gmap nat Response))
    (section_name : pystr) (questions : list Question) : list ReportEntry :=
  match all !! section_name with
  | Some of_section =>
      imap (fun q_index question =>
              response_data section_name question (of_section !! q_index))
        questions
  | None => []
  end.

Definition count_questions (secs : gmap pystr (list Question)) : nat :=
  map_fold (fun _ questions total => length questions + total) 0 secs.

Definition download_data (timestamp : pystr) (s : SessionState) : Report :=
  {| questionnaire_responses :=
       map_imap (fun section_name questions =>
                   Some (section_responses (responses s) section_name questions))
         (sections s);
     completion_date := timestamp;
     total_questions := count_questions (sections s) |}.

(** Whether the summary shows an Edit button for this question. *)
Definition edit_shown (s : SessionState) (section_name : pystr) (q_index : nat)
  : bool :=
  match sections s !! section_name, responses s !! section_name with
  | Some questions, Some of_section =>
      bool_decide (q_index < length questions)
      && bool_decide (is_Some (of_section !! q_index))
  | _, _ => false
  end.

Definition display_summary (timestamp : pystr) (click : option Click)
    (s : SessionState) : option (Store * list Output) :=
  let edit :=
    match click with
    | Some (Edit section_name q_index) =>
        if edit_shown s section_name q_index then Some (section_name, q_index)
        else None
    | _ => None
    end in
  match edit with
  | Some target =>
      Some (Keys (set_editing_question (Some target) (set_editing_mode true s)),
            [Notice LSuccess])
  | None =>
      let out := [Notice LSuccess; Download (download_data timestamp s)] in
      match click with
      | Some StartNew => Some (Unset (Some (sections s)), out)
      | _ => Some (Keys s, out)
      end
  end.

(** *** main *)

Definition main (w : World) (click : option Click) (st : Store)
  : option (Store * list Output) :=
  let s := initialize_session_state st in
  match configure_gemini w with
  | (None, out) => Some (Keys s, out)
  | (Some r, _) =>
      let model := Some r in
      let s :=
        if bool_decide (sections s = ∅)
        then set_sections (load_questions_from_json w) s else s in
      if bool_decide (sections s = ∅) then Some (Keys s, [])
      else
        let s := display_progress_sidebar s in
        if bool_decide (size (completed_sections s) = size (sections s)) then
          display_summary (now w) click s
        else if negb (truthy (current_section s)) || editing_mode s then
          if negb (editing_mode s) then display_section_selection click s
          else display_editing_interface (now w) click s
        else
          let current_section := current_section s in
          questions ← sections s !! current_section;
          let current_q_index := current_question_index s in
          if bool_decide (length questions ≤ current_q_index) then
            Some (Keys (set_followup_mode false
                          (set_current_question_index 0
                             (set_current_section [] s))),
                  [Notice LSuccess])
          else
            current_question ← questions !! current_q_index;
            if followup_mode s then
              display_followup_interface (now w) current_section current_q_index
                click s
            else
              display_main_question_interface (now w) model current_section
                current_q_index current_question click s
  end.

(** A session: the runs of the script one after the other. *)
Fixpoint session (runs : list (World * option Click)) (st : Store)
  : option Store :=
  match runs with
  | [] => Some st
  | (w, click) :: rest =>
      match main w click st with
      | Some (st', _) => session rest st'
      | None => None
      end
  end.

(** The bank as the loader produces it carries no ['answered'] key. *)
Definition fresh_bank (bank : gmap pystr (list Question)) : Prop :=
  ∀ name questions, bank !! name = Some questions → Forall unanswered questions.

Inductive reachable : Store → Prop :=
  | reach_new : reachable (Unset None)
  | reach_run st w click st' out :
      reachable st →
      fresh_bank (bpr_json w) →
      main w click st = Some (st', out) →
      reachable st'.

End Program.


(** ** Properties of a session state *)

Abbreviation view := initialize_session_state.

(** The response stored for a question, and the question itself. *)
Definition response_at (s : SessionState) (section : pystr) (i : nat)
  : option Response :=
  responses s !! section ≫= (.!! i).

Definition question_at (s : SessionState) (section : pystr) (i : nat)
  : option Question :=
  sections s !! section ≫= (.!! i).

(** The ['answered'] flag of a question is set exactly when a response is
    stored for it. *)
Definition flags_agree (s : SessionState) : Prop :=
  ∀ section i,
    is_Some (response_at s section i)
    ↔ ∃ q, question_at s section i = Some q ∧ q_answered q = true.

(** The follow-up keys hold their initial values. *)
Definition followup_cleared (s : SessionState) : Prop :=
  followup_questions s = [] ∧ followup_answers s = []
  ∧ current_followup_index s = 0 ∧ original_answer s = [].


(** Invariant of the sessions that have loaded their bank: the completed
    sections are done; the current section, if any, exists; in follow-up
    mode the current question exists, and outside it the follow-up keys
    are cleared; editing mode is only on when every section is done; in
    each section the answered questions are the first ones, and in the
    current section they are those below the question index; the flags
    agree with the responses, or the store is empty and every section is
    done. *)
Record Live (s : SessionState) : Prop := {
  live_bank : sections s ≠ ∅;
  live_completed : completed_sections s ⊆ done_sections (sections s);
  live_section :
    truthy (current_section s) = true →
    is_Some (sections s !! current_section s);
  live_followup :
    followup_mode s = true →
    truthy (current_section s) = true
    ∧ is_Some (question_at s (current_section s) (current_question_index s));
  live_normal : followup_mode s = false → followup_cleared s;
  live_editing :
    editing_mode s = true → done_sections (sections s) = dom (sections s);
  live_prefix :
    ∀ section, ∃ k, ∀ j q,
      question_at s section j = Some q → (q_answered q = true ↔ j < k);
  live_cursor :
    truthy (current_section s) = true →
    ∀ j q, question_at s (current_section s) j = Some q →
           (q_answered q = true ↔ j < current_question_index s);
  live_flags :
    flags_agree s
    ∨ (responses s = ∅ ∧ done_sections (sections s) = dom (sections s))
}.

(** Invariant of every session: nothing loaded yet, or [Live]. *)
Definition Inv (s : SessionState) : Prop :=
  s = view (Unset None) ∨ Live s.

(** The state [save_response] leaves. *)
Definition saved (timestamp section : pystr) (i : nat) (a : pystr)
    (followup_data : option (list FollowupAnswer))
    (questions : list Question) (q : Question) (s : SessionState)
  : SessionState :=
  set_sections
    (<[section := <[i := mark_answered q]> questions]> (sections s))
    (set_responses
       (<[section :=
            <[i := {| answer := a; followup := default [] followup_data;
                      timestamp := timestamp |}]>
              (default ∅ (responses s !! section))]> (responses s)) s).

Section Screens.

Variable json_loads : pystr -> option json.
Variable format_value : json -> pystr.

(** The part of [main] below the sidebar: the choice of the screen. *)
Definition dispatch (w : World) (click : option Click) (s : SessionState)
  : option (Store * list Output) :=
  if bool_decide (size (completed_sections s) = size (sections s)) then
    display_summary (now w) click s
  else if negb (truthy (current_section s)) || editing_mode s then
    if negb (editing_mode s) then display_section_selection click s
    else display_editing_interface (now w) click s
  else
    questions ← sections s !! current_section s;
    if bool_decide (length questions ≤ current_question_index s) then
      Some (Keys (set_followup_mode false
                    (set_current_question_index 0 (set_current_section [] s))),
            [Notice LSuccess])
    else
      current_question ← questions !! current_question_index s;
      if followup_mode s then
        display_followup_interface format_value (now w) (current_section s)
          (current_question_index s) click s
      else
        display_main_question_interface json_loads (now w) (Some (reply w))
          (current_section s) (current_question_index s) current_question
          click s.

End Screens.

(** The classifier call failed, or its text starts with neither marker. *)
Definition fail_open (r : Reply) : Prop :=
  match r with
  | Raises => True
  | Text t =>
      startswith ADEQUATE (strip t) = false
      ∧ startswith NEEDS_FOLLOWUP (strip t) = false
  end.

(** The spec's resume position: the first index below [n] without a
    response, scanning from 0, or [n] when every index has one. *)
Definition first_without_response (of_section : gmap nat Response) (n : nat)
  : nat :=
  default n (fst <$> list_find (fun i => of_section !! i = None) (seq 0 n)).

(** ** A concrete session *)

Definition ask (text : string) : Question :=
  {| q_question := lit text; q_context := None; q_category := None;
     q_answered := false |}.

Definition Company : pystr := lit "Company".

Definition bank : gmap pystr (list Question) :=
  {[ Company := [ask "What is the company name?";
                 ask "Which database do you use?"] ]}.

Definition world (r : Reply) : World :=
  {| api_key := true; bpr_json := bank; reply := r;
     now := lit "2024-05-01T10:00:00" |}.

(** Stands for Python's text of a value that is not a string; the runs
    below format strings only. *)
Definition plain_text (v : json) : pystr := [].

Definition quoted (s : string) : pystr := [34%N] ++ lit s ++ [34%N].

(** Replies of the model: three questions in a JSON list, two questions,
    and a JSON object. *)
Definition three_questions : pystr :=
  lit "NEEDS_FOLLOWUP [" ++ quoted "Which product?" ++ lit ", "
  ++ quoted "Which version?" ++ lit ", " ++ quoted "Who hosts it?" ++ lit "]".

Definition two_questions : pystr :=
  lit "NEEDS_FOLLOWUP [" ++ quoted "Q1" ++ lit ", " ++ quoted "Q2" ++ lit "]".

Definition an_object : pystr := lit "NEEDS_FOLLOWUP {}".

(** A run without a click, and a run with one; the model is not called in
    them. *)
Definition quiet : World * option Click := (world Raises, None).
Definition press (c : Click) : World * option Click := (world Raises, Some c).

Definition play (runs : list (World * option Click)) : Store :=
  default (Unset None)
    (session Decoder.json_loads plain_text runs (Unset None)).

(** The bank is loaded and the first question of Company is shown. *)
Definition to_question : list (World * option Click) :=
  [quiet; press (Start Company); quiet].

(** The first question is skipped, then the user goes back to the list. *)
Definition to_resume : list (World * option Click) :=
  to_question ++ [press Skip; quiet; press BackToSections; quiet].

(** The answer "A" got two follow-up questions, answered "R1" and "R2". *)
Definition to_exhausted : list (World * option Click) :=
  to_question
  ++ [(world (Text two_questions), Some (SubmitAnswer (lit "A"))); quiet;
      press (Next (lit "R1")); quiet; press (Next (lit "R2")); quiet].

(** Both questions are skipped: the summary is shown. *)
Definition to_summary : list (World * option Click) :=
  to_question ++ [press Skip; quiet; press Skip; quiet].

(** Start New Questionnaire on the summary. *)
Definition to_restart : list (World * option Click) :=
  to_summary ++ [press StartNew].

(** Edit on the first response of the summary. *)
Definition to_editing : list (World * option Click) :=
  to_summary ++ [press (Edit Company 0)].

(** The stores these runs leave (the lemmas [at_question_played] and the
    like below relate them to the runs). *)
Definition at_question : Store := Eval vm_compute in play to_question.
Definition at_resume : Store := Eval vm_compute in play to_resume.
Definition at_exhausted : Store := Eval vm_compute in play to_exhausted.
Definition at_restart : Store := Eval vm_compute in play to_restart.
Definition at_editing : Store := Eval vm_compute in play to_editing.

(** ** The runs as a transition relation

    What one run over a loaded bank can make of the state [s]: the store
    it leaves, by the button that fired ([dispatch_transition] below shows
    that [main] takes no other step). *)

Inductive transition (ts : pystr) (click : option Click) (s : SessionState)
  : Store → Prop :=
  | t_idle :
      transition ts click s (Keys (display_progress_sidebar s))
  | t_edit section_name q_index :
      click = Some (Edit section_name q_index) →
      done_sections (sections s) = dom (sections s) →
      is_Some (response_at s section_name q_index) →
      transition ts click s
        (Keys (set_editing_question (Some (section_name, q_index))
                 (set_editing_mode true (display_progress_sidebar s))))
  | t_restart :
      click = Some StartNew →
      done_sections (sections s) = dom (sections s) →
      transition ts click s (Unset (Some (sections s)))
  | t_start name questions i q :
      click = Some (Start name) →
      truthy (current_section s) = false →
      followup_mode s = false →
      sections s !! name = Some questions →
      questions !! i = Some q →
      q_answered q = false →
      (∀ j y, questions !! j = Some y → j < i → q_answered y = true) →
      transition ts click s
        (Keys (set_current_question_index i
                 (set_current_section name (display_progress_sidebar s))))
  | t_complete questions :
      truthy (current_section s) = true →
      followup_mode s = false →
      sections s !! current_section s = Some questions →
      length questions ≤ current_question_index s →
      transition ts click s
        (Keys (set_followup_mode false
                 (set_current_question_index 0
                    (set_current_section [] (display_progress_sidebar s)))))
  | t_next fq a :
      click = Some (Next a) →
      followup_mode s = true →
      followup_questions s !! current_followup_index s = Some fq →
      truthy (strip a) = true →
      transition ts click s
        (Keys (set_current_followup_index (current_followup_index s + 1)
                 (set_followup_answers
                    (followup_answers s
                     ++ [{| fa_question := fq; fa_answer := strip a |}])
                    (display_progress_sidebar s))))
  | t_commit_reset a fd questions q :
      click = Some UseOriginal ∨ click = Some AcceptFinal →
      followup_mode s = true →
      truthy (current_section s) = true →
      sections s !! current_section s = Some questions →
      questions !! current_question_index s = Some q →
      transition ts click s
        (Keys (set_current_question_index (current_question_index s + 1)
                 (reset_followup_state
                    (saved ts (current_section s) (current_question_index s)
                       a fd questions q (display_progress_sidebar s)))))
  | t_start_over :
      click = Some StartOver →
      followup_mode s = true →
      length (followup_questions s) ≤ current_followup_index s →
      transition ts click s (Keys (reset_followup_state (display_progress_sidebar s)))
  | t_commit a questions q :
      click = Some Skip ∨ (∃ user_answer, click = Some (SubmitAnswer user_answer)) →
      followup_mode s = false →
      truthy (current_section s) = true →
      sections s !! current_section s = Some questions →
      questions !! current_question_index s = Some q →
      transition ts click s
        (Keys (set_current_question_index (current_question_index s + 1)
                 (saved ts (current_section s) (current_question_index s)
                    a None questions q (display_progress_sidebar s))))
  | t_enter fqs a :
      click = Some (SubmitAnswer a) →
      followup_mode s = false →
      truthy (current_section s) = true →
      is_Some (question_at s (current_section s) (current_question_index s)) →
      transition ts click s
        (Keys (set_original_answer (strip a)
                 (set_current_followup_index 0
                    (set_followup_answers []
                       (set_followup_questions fqs
                          (set_followup_mode true
                             (display_progress_sidebar s)))))))
  | t_back :
      click = Some BackToSections →
      followup_mode s = false →
      truthy (current_section s) = true →
      transition ts click s
        (Keys (set_followup_mode false
                 (set_current_section [] (display_progress_sidebar s)))).

(** ** More invariants of the sessions *)

(** The follow-up answers collected so far answer the first follow-up
    questions, one each and in order, and none of them is empty. *)
Definition paired (s : SessionState) : Prop :=
  fa_question <$> followup_answers s
  = take (current_followup_index s) (followup_questions s)
  ∧ current_followup_index s ≤ length (followup_questions s)
  ∧ Forall (fun fa => truthy (fa_answer fa) = true) (followup_answers s).

(** The question index does not pass the end of the current section. *)
Definition in_bounds (s : SessionState) : Prop :=
  truthy (current_section s) = true →
  ∃ questions,
    sections s !! current_section s = Some questions
    ∧ current_question_index s ≤ length questions.

(** ** The sidebar's totals

    [total_questions] and [total_answered] of [display_progress_sidebar]
    (lines 169 to 177), the two numbers of the caption of line 200. *)
Definition sidebar_totals (secs : gmap pystr (list Question)) : nat * nat :=
  map_fold
    (fun _ questions totals =>
       (totals.1 + length questions, totals.2 + section_answered questions))
    (0, 0) secs.

(** ** The fallback of [validate_response], line by line

    What the loop of lines 104 to 109 appends for one line of the reply. *)
Definition fallback_question (line : pystr) : option json :=
  let line := strip line in
  if truthy line && mem_char question_mark line then
    let question := strip_chars strip_set line in
    if truthy question then Some (JString question) else None
  else None.

(** The calls of the model among the outputs of a run. *)
Definition is_call (o : Output) : bool :=
  match o with
  | Generate _ _ _ => true
  | _ => false
  end.

(** ** More of the concrete session *)

(** The answer "A" got two follow-up questions; the first one is asked. *)
Definition to_asking : list (World * option Click) :=
  to_question
  ++ [(world (Text two_questions), Some (SubmitAnswer (lit "A"))); quiet].

Definition at_asking : Store := Eval vm_compute in play to_asking.
Definition at_summary : Store := Eval vm_compute in play to_summary.

(** A reply with its questions on the marker line, not as JSON. *)
Definition on_marker_line : pystr :=
  lit "NEEDS_FOLLOWUP Which database? Which version?".

(** The first question is skipped: the second one is shown. *)
Definition to_second_question : list (World * option Click) :=
  to_question ++ [press Skip; quiet].

(** The first follow-up question got the answer "R1". *)
Definition to_second_followup : list (World * option Click) :=
  to_asking ++ [press (Next (lit "R1")); quiet].

Definition at_second_question : Store :=
  Eval vm_compute in play to_second_question.
Definition at_second_followup : Store :=
  Eval vm_compute in play to_second_followup.

(** A bank of two sections of one question each; the question of Company
    is skipped, which ends the section. *)
Definition Security : pystr := lit "Security".

Definition two_sections : gmap pystr (list Question) :=
  {[ Company := [ask "What is the company name?"];
     Security := [ask "Who grants access?"] ]}.

Definition world_two : World :=
  {| api_key := true; bpr_json := two_sections; reply := Raises;
     now := lit "2024-05-01T10:00:00" |}.

Definition to_finished : list (World * option Click) :=
  [(world_two, None); (world_two, Some (Start Company)); (world_two, None);
   (world_two, Some Skip)].

Definition at_finished : Store :=
  Eval vm_compute in
    default (Unset None)
      (session Decoder.json_loads plain_text to_finished (Unset None)).

(** ** load_questions_from_json: the section names

    In [main] the dict the loader returns is a datum of the run
    ([bpr_json]).  This is the loop of lines 31 to 49 that builds it from
    the items of ['bpr_questionnaire']: the clean-up of each key and the
    assignment [sections[section_name] = questions].  [str.title] belongs
    to the Python library and is a parameter; [ascii_title] follows it on
    ASCII text and is used in the concrete runs. *)

Module Loader.

(** [s.replace(old, new)] for a non-empty [old]: the occurrences are
    found from the left and do not overlap; [skip] counts the characters
    of a found occurrence still to pass. *)
Fixpoint replace_from (old new : pystr) (skip : nat) (s : pystr) : pystr :=
  match s with
  | [] => []
  | c :: s' =>
      match skip with
      | S n => replace_from old new n s'
      | 0 =>
          if startswith old s
          then new ++ replace_from old new (length old - 1) s'
          else c :: replace_from old new 0 s'
      end
  end.

Definition replace (old new s : pystr) : pystr := replace_from old new 0 s.

Definition space : N := 32%N.
Definition underscore : N := 95%N.

Definition is_upper (c : N) : bool := ((65 <=? c) && (c <=? 90))%N.
Definition is_lower (c : N) : bool := ((97 <=? c) && (c <=? 122))%N.

(** [s.title()] on ASCII text: a letter after a letter is put in lower
    case, any other letter in upper case. *)
Fixpoint ascii_title_from (previous_is_cased : bool) (s : pystr) : pystr :=
  match s with
  | [] => []
  | c :: s' =>
      if is_upper c then
        (if previous_is_cased then (c + 32)%N else c)
        :: ascii_title_from true s'
      else if is_lower c then
        (if previous_is_cased then c else (c - 32)%N)
        :: ascii_title_from true s'
      else c :: ascii_title_from false s'
  end.

Definition ascii_title (s : pystr) : pystr := ascii_title_from false s.

Section Names.

Variable title : pystr -> pystr.

(** Lines 33 to 47. *)
Definition section_name (section_key : pystr) : pystr :=
  let section_name :=
    title (replace [underscore] [space]
             (replace (lit "_questions") [] section_key)) in
  if bool_decide (section_name = lit "Company Questions") then
    lit "Company"
  else if bool_decide (section_name = lit "Gl Questions") then
    lit "General Ledger"
  else if bool_decide (section_name = lit "Financial Reports Questions") then
    lit "Financial Reports"
  else if bool_decide (section_name = lit "Cash Questions") then
    lit "Cash Management"
  else if bool_decide (section_name = lit "Ap Questions") then
    lit "Accounts Payable"
  else if bool_decide (section_name = lit "Ar Questions") then
    lit "Accounts Receivable"
  else if bool_decide (section_name = lit "Pea Questions") then
    lit "Prepaid Expense Amortization"
  else section_name.

(** The loop over [questionnaire.items()]. *)
Definition load_sections (items : list (pystr * json)) : gmap pystr json :=
  fold_left
    (fun sections item => <[section_name item.1 := item.2]> sections)
    items ∅.

End Names.

End Loader.

(** Two keys of a questionnaire that are cleaned to the same name. *)
Definition two_keys : list (pystr * json) :=
  [(lit "ap_questions", JArray [JString (lit "Who approves payments?")]);
   (lit "ap", JArray [])].

(** ** The bank as the runs read it

    [load_questions_from_json] copies the values of the document unchecked
    (line 49), and the runs read them as they go: a section with
    [len(questions)] and a loop over its items, a question with
    [q.get('answered', False)] (line 174), [question['question']] (line
    276), [question.get('context')] and [question.get('category',
    section_name)].  [read_bank] gives the bank of the embedding for a dict
    whose values have the shape these reads expect: lists of objects with
    a string under ['question'], a string, null or nothing under
    ['context'], a string or nothing under ['category'], a Boolean or
    nothing under ['answered'].  It is [None] for any other dict: there a
    read can raise (a [KeyError] at line 276 for a question without
    ['question'], an [AttributeError] at line 174 for a question that is
    not an object, a [TypeError] at line 173 for a section that has no
    length), or gives a value the embedding has no counterpart for. *)

(** [d.get(key)] on the members of a decoded object: the value of the
    last member with that key, as [json.loads] builds the dict. *)
Definition dict_get (key : pystr) (members : list (pystr * json))
  : option json :=
  snd <$> last (filter (fun member => member.1 = key) members).

Definition read_question (v : json) : option Question :=
  match v with
  | JObject members =>
      match dict_get (lit "question") members with
      | Some (JString question) =>
          context ←
            match dict_get (lit "context") members with
            | None | Some JNull => Some None
            | Some (JString s) => Some (Some s)
            | Some _ => None
            end;
          category ←
            match dict_get (lit "category") members with
            | None => Some None
            | Some (JString s) => Some (Some s)
            | Some _ => None
            end;
          answered ←
            match dict_get (lit "answered") members with
            | None => Some false
            | Some (JBool b) => Some b
            | Some _ => None
            end;
          Some {| q_question := question; q_context := context;
                  q_category := category; q_answered := answered |}
      | _ => None
      end
  | _ => None
  end.

Definition read_questions (v : json) : option (list Question) :=
  match v with
  | JArray items => mapM read_question items
  | _ => None
  end.

Definition read_bank (sections : gmap pystr json)
  : option (gmap pystr (list Question)) :=
  map_fold
    (fun section_name questions read =>
       bank ← read;
       questions ← read_questions questions;
       Some (<[section_name := questions]> bank))
    (Some ∅) sections.

(** The dict the loader returns for the bank of the concrete session, and
    one whose only question has no text. *)
Definition bank_json : gmap pystr json :=
  {[ Company :=
       JArray
         [JObject [(lit "question", JString (lit "What is the company name?"))];
          JObject [(lit "question", JString (lit "Which database do you use?"));
                   (lit "context", JNull)]] ]}.

Definition bank_without_text : gmap pystr json :=
  {[ Company := JArray [JObject [(lit "context", JString (lit "c"))]] ]}.

(** * Verification *)

(** ** Basic facts *)

Lemma section_answered_le (questions : list Question) :
  section_answered questions ≤ length questions.
Proof.
  unfold section_answered. induction questions as [|q questions IH]; simpl.
  - lia.
  - destruct (q_answered q); simpl; lia.
Qed.

Lemma section_done_Forall (questions : list Question) :
  section_done questions ↔ Forall (fun q => q_answered q = true) questions.
Proof.
  unfold section_done, section_answered.
  induction questions as [|q questions IH]; simpl.
  - split; [constructor | reflexivity].
  - pose proof (section_answered_le questions) as Hle.
    unfold section_answered in Hle.
    destruct (q_answered q) eqn:Hq; simpl.
    + rewrite Forall_cons. split.
      * intros H. split; [done | apply IH; lia].
      * intros [_ H]. apply IH in H. lia.
    + split; [lia | intros H; apply Forall_cons in H as [H _]; congruence].
Qed.

Lemma section_done_lookup (questions : list Question) :
  section_done questions
  ↔ ∀ j q, questions !! j = Some q → q_answered q = true.
Proof. rewrite section_done_Forall. apply Forall_lookup. Qed.

Lemma elem_of_done_sections (secs : gmap pystr (list Question)) name :
  name ∈ done_sections secs
  ↔ ∃ questions, secs !! name = Some questions ∧ section_done questions.
Proof.
  unfold done_sections. rewrite elem_of_dom. split.
  - intros [questions H]. apply map_lookup_filter_Some in H as [H1 H2].
    by exists questions.
  - intros (questions & H1 & H2). exists questions.
    by apply map_lookup_filter_Some.
Qed.

Lemma done_sections_dom (secs : gmap pystr (list Question)) :
  done_sections secs ⊆ dom secs.
Proof. apply dom_filter_subseteq. Qed.

Lemma first_unanswered_Some (questions : list Question) i :
  first_unanswered questions = Some i
  ↔ ∃ q, questions !! i = Some q ∧ q_answered q = false
         ∧ ∀ j y, questions !! j = Some y → j < i → q_answered y = true.
Proof.
  unfold first_unanswered, unanswered. split.
  - destruct (list_find _ questions) as [[i' q]|] eqn:H; [|done].
    simpl. intros [= ->]. apply list_find_Some in H as (H1 & H2 & H3).
    exists q. split_and!; [done..|].
    intros j y Hj Hlt. specialize (H3 j y Hj Hlt).
    by destruct (q_answered y).
  - intros (q & H1 & H2 & H3).
    assert (list_find (fun q => q_answered q = false) questions = Some (i, q))
      as ->; [|done].
    apply list_find_Some. split_and!; [done..|].
    intros j y Hj Hlt. rewrite (H3 j y Hj Hlt). done.
Qed.

Lemma first_unanswered_None (questions : list Question) :
  first_unanswered questions = None ↔ section_done questions.
Proof.
  unfold first_unanswered, unanswered.
  rewrite fmap_None, list_find_None, section_done_Forall.
  apply Forall_iff. intros q. by destruct (q_answered q).
Qed.

Example decode_list :
  Decoder.json_loads (lit "[1, true, {}]")
  = Some (JArray [JNumber (lit "1"); JBool true; JObject []]).
Proof. vm_compute. reflexivity. Qed.

Lemma question_at_Some s section i q :
  question_at s section i = Some q
  ↔ ∃ questions, sections s !! section = Some questions
                 ∧ questions !! i = Some q.
Proof.
  unfold question_at. destruct (sections s !! section) as [qs|]; simpl.
  - split; [intros H; by exists qs | intros (qs' & [= <-] & H); done].
  - split; [done | intros (qs' & [=] & _)].
Qed.

Lemma save_response_saved ts section i a fd s questions q :
  sections s !! section = Some questions →
  questions !! i = Some q →
  save_response ts section i a fd s = Some (saved ts section i a fd questions q s).
Proof.
  intros Hs Hq. unfold save_response. simpl. rewrite Hs. simpl.
  rewrite Hq. reflexivity.
Qed.

Lemma lookup_saved_response (all : gmap pystr (gmap nat Response))
    section i (r : Response) sec j :
  <[section := <[i := r]> (default ∅ (all !! section))]> all !! sec ≫= (.!! j)
  = if decide (sec = section ∧ j = i) then Some r
    else all !! sec ≫= (.!! j).
Proof.
  rewrite lookup_insert.
  destruct (decide (section = sec)) as [->|Hne]; simpl.
  - rewrite lookup_insert. destruct (decide (i = j)) as [->|Hne].
    + rewrite decide_True; done.
    + rewrite decide_False by (intros [_ ?]; congruence).
      destruct (all !! sec); done.
  - rewrite decide_False by (intros [? _]; congruence). done.
Qed.

Lemma lookup_marked (secs : gmap pystr (list Question))
    section i questions q sec j :
  secs !! section = Some questions →
  questions !! i = Some q →
  <[section := <[i := mark_answered q]> questions]> secs !! sec ≫= (.!! j)
  = if decide (sec = section ∧ j = i) then Some (mark_answered q)
    else secs !! sec ≫= (.!! j).
Proof.
  intros Hs Hq. rewrite lookup_insert.
  destruct (decide (section = sec)) as [->|Hne]; simpl.
  - rewrite Hs. simpl. rewrite list_lookup_insert.
    apply lookup_lt_Some in Hq as Hlt.
    destruct (decide (i = j)) as [->|Hne].
    + rewrite !decide_True; done.
    + rewrite !decide_False; [done | intros [_ ?]; congruence | intros [? _]; done].
  - rewrite decide_False by (intros [? _]; congruence). done.
Qed.

Lemma dom_marked (secs : gmap pystr (list Question)) section i questions q :
  secs !! section = Some questions →
  dom (<[section := <[i := mark_answered q]> questions]> secs) = dom secs.
Proof. intros Hs. apply dom_insert_lookup_L. by rewrite Hs. Qed.

(** A section is done when all its questions carry the flag. *)
Lemma elem_of_done_at (secs : gmap pystr (list Question)) name :
  name ∈ done_sections secs
  ↔ is_Some (secs !! name)
    ∧ ∀ j q, secs !! name ≫= (.!! j) = Some q → q_answered q = true.
Proof.
  rewrite elem_of_done_sections. split.
  - intros (qs & H1 & H2). split; [by exists qs|].
    intros j q. rewrite H1. simpl. intros Hq.
    eapply section_done_lookup; eauto.
  - intros [[qs H1] H2]. exists qs. split; [done|].
    apply section_done_lookup. intros j q Hq. apply (H2 j).
    rewrite H1. done.
Qed.

Lemma done_marked (secs : gmap pystr (list Question)) section i questions q :
  secs !! section = Some questions →
  questions !! i = Some q →
  done_sections secs
  ⊆ done_sections (<[section := <[i := mark_answered q]> questions]> secs).
Proof.
  intros Hs Hq name. rewrite !elem_of_done_at. intros [H1 H2]. split.
  - apply elem_of_dom. rewrite dom_marked by done. by apply elem_of_dom.
  - intros j y. rewrite (lookup_marked _ _ _ _ _ _ _ Hs Hq).
    case_decide; [intros [= <-]; done | apply H2].
Qed.

Lemma flags_agree_saved ts section i a fd questions q s :
  sections s !! section = Some questions →
  questions !! i = Some q →
  flags_agree s →
  flags_agree (saved ts section i a fd questions q s).
Proof.
  intros Hs Hq H sec j. unfold response_at, question_at, saved. simpl.
  rewrite lookup_saved_response, (lookup_marked _ _ _ _ _ _ _ Hs Hq).
  case_decide.
  - split; [intros _; by exists (mark_answered q) | by eexists].
  - apply H.
Qed.

Ltac unf :=
  unfold flags_agree, followup_cleared, question_at, response_at,
    display_progress_sidebar, reset_followup_state, saved in *;
  simpl in *.

Lemma live_sidebar s : Live s → Live (display_progress_sidebar s).
Proof.
  intros [H1 H2 H3 H4 H5 H6 H7 H8 H9]. constructor; unf; auto.
  set_solver.
Qed.

Lemma sidebar_size s :
  completed_sections s ⊆ done_sections (sections s) →
  size (completed_sections (display_progress_sidebar s)) = size (sections s)
  ↔ done_sections (sections s) = dom (sections s).
Proof.
  intros Hsub. unf.
  assert (completed_sections s ∪ done_sections (sections s)
          = done_sections (sections s)) as -> by set_solver.
  rewrite <- (size_dom (D := gset pystr) (sections s)). split.
  - intros Hsize. apply set_subseteq_size_eq; [apply done_sections_dom | lia].
  - by intros ->.
Qed.

Section Preservation.

Variable json_loads : pystr -> option json.
Variable format_value : json -> pystr.

Local Abbreviation dispatch := (dispatch json_loads format_value).

Lemma main_keys w click st :
  main json_loads format_value w click st
  = main json_loads format_value w click (Keys (view st)).
Proof. reflexivity. Qed.

Lemma main_no_key w click st :
  api_key w = false →
  main json_loads format_value w click st = Some (Keys (view st), [Notice LError]).
Proof. intros H. unfold main, configure_gemini. rewrite H. reflexivity. Qed.

Lemma main_loaded w click st :
  api_key w = true →
  sections (view st) ≠ ∅ →
  main json_loads format_value w click st
  = dispatch w click (display_progress_sidebar (view st)).
Proof.
  intros Hkey Hne. unfold main, configure_gemini. rewrite Hkey.
  rewrite (bool_decide_eq_false_2 _ Hne). simpl.
  rewrite (bool_decide_eq_false_2 _ Hne). reflexivity.
Qed.

Lemma main_loading w click st :
  api_key w = true →
  sections (view st) = ∅ →
  main json_loads format_value w click st
  = if bool_decide (bpr_json w = ∅)
    then Some (Keys (set_sections (bpr_json w) (view st)), [])
    else dispatch w click
           (display_progress_sidebar (set_sections (bpr_json w) (view st))).
Proof.
  intros Hkey He. unfold main, configure_gemini, load_questions_from_json.
  rewrite Hkey. rewrite (bool_decide_eq_true_2 _ He). simpl.
  case_bool_decide; reflexivity.
Qed.

Lemma summary_live ts click s :
  Live s →
  done_sections (sections s) = dom (sections s) →
  ∃ st' out, display_summary ts click s = Some (st', out) ∧ Live (view st').
Proof.
  intros HL Hdone. unfold display_summary.
  destruct HL as [H1 H2 H3 H4 H5 H6 H7 H8 H9].
  assert (Live s) as HL by (constructor; done).
  destruct click as [[]|]; simpl;
    try (do 2 eexists; split; [reflexivity | exact HL]).
  - destruct (edit_shown s section_name q_index);
      do 2 eexists; (split; [reflexivity|]); [|exact HL].
    constructor; unf; auto.
  - do 2 eexists; split; [reflexivity|].
    constructor; unf; auto; done.
Qed.


Lemma selection_live click s :
  Live s →
  done_sections (sections s) ⊆ completed_sections s →
  truthy (current_section s) = false →
  ∃ st' out, display_section_selection click s = Some (st', out)
             ∧ Live (view st').
Proof.
  intros HL Hdone Hcs. unfold display_section_selection.
  case_bool_decide as Hinc; [by do 2 eexists|].
  destruct click as [[]|]; simpl; try (by do 2 eexists).
  case_bool_decide as Hin; [|by do 2 eexists].
  apply elem_of_difference in Hin as [Hdom Hnot].
  apply elem_of_dom in Hdom as [questions Hq]. rewrite Hq. simpl.
  assert (¬ section_done questions) as Hnd.
  { intros Hd. apply Hnot, Hdone, elem_of_done_sections. eauto. }
  destruct (first_unanswered questions) as [i|] eqn:Hfirst;
    [|by apply first_unanswered_None in Hfirst].
  apply first_unanswered_Some in Hfirst as (q & Hi & Hqi & Hbefore).
  do 2 eexists; split; [reflexivity|]. simpl.
  destruct HL as [H1 H2 H3 H4 H5 H6 H7 H8 H9].
  assert (followup_mode s = false) as Hmode.
  { destruct (followup_mode s); [|done]. destruct H4 as [H4 _]; congruence. }
  constructor; unf; auto.
  - rewrite Hmode. done.
  - intros _ j y. rewrite Hq. simpl. intros Hj.
    destruct (H7 section_name) as [k Hk]. rewrite Hq in Hk. simpl in Hk.
    assert (k = i) as ->; [|by apply Hk].
    destruct (Nat.lt_trichotomy k i) as [Hlt|[->|Hgt]]; [|done|].
    + destruct (questions !! k) as [z|] eqn:Hz.
      * pose proof (Hbefore k z Hz Hlt) as Ht. apply (Hk k z Hz) in Ht. lia.
      * apply lookup_ge_None in Hz. apply lookup_lt_Some in Hi. lia.
    + assert (q_answered q = true) by (by apply (Hk i q Hi)). congruence.
Qed.

(** Committing the response of the current question. *)
Lemma commit_live ts a fd questions q s s1 :
  Live s →
  flags_agree s →
  editing_mode s = false →
  truthy (current_section s) = true →
  sections s !! current_section s = Some questions →
  questions !! current_question_index s = Some q →
  s1 = saved ts (current_section s) (current_question_index s) a fd questions q s →
  Live (set_current_question_index (current_question_index s + 1)
          (reset_followup_state s1))
  ∧ (followup_mode s = false →
     Live (set_current_question_index (current_question_index s + 1) s1)).
Proof.
  intros [H1 H2 H3 H4 H5 H6 H7 H8 H9] Hflags Hedit Hcs Hs Hq ->.
  pose proof (flags_agree_saved ts _ _ a fd _ _ _ Hs Hq Hflags) as Hflags'.
  pose proof (done_marked _ _ _ _ _ Hs Hq) as Hdone.
  pose proof (fun sec j => lookup_marked _ _ _ _ _ sec j Hs Hq) as Hlook.
  assert (∀ section, ∃ k, ∀ j y,
    <[current_section s := <[current_question_index s := mark_answered q]>
        questions]> (sections s) !! section ≫= (.!! j) = Some y
    → (q_answered y = true ↔ j < k)) as Hprefix.
  { intros section. destruct (decide (section = current_section s)) as [->|Hne].
    - exists (current_question_index s + 1). intros j y. rewrite Hlook.
      case_decide as Hd.
      + destruct Hd as [_ ->]. intros [= <-]. simpl. split; [lia | done].
      + intros Hy. rewrite (H8 Hcs j y Hy).
        assert (j ≠ current_question_index s) by (intros ->; apply Hd; done).
        lia.
    - destruct (H7 section) as [k Hk]. exists k. intros j y. rewrite Hlook.
      rewrite decide_False by (intros [? _]; done). apply Hk. }
  assert (∀ j y,
    <[current_section s := <[current_question_index s := mark_answered q]>
        questions]> (sections s) !! current_section s ≫= (.!! j) = Some y
    → (q_answered y = true ↔ j < current_question_index s + 1)) as Hcursor.
  { intros j y. rewrite Hlook. case_decide as Hd.
    - destruct Hd as [_ ->]. intros [= <-]. simpl. split; [lia | done].
    - intros Hy. rewrite (H8 Hcs j y Hy).
      assert (j ≠ current_question_index s) by (intros ->; apply Hd; done).
      lia. }
  split; [|intros Hmode]; constructor; unf; auto;
    try (by apply insert_non_empty); try (by etrans; eauto);
    try (by intros _; rewrite lookup_insert_eq; eauto);
    try congruence.
Qed.

Lemma followup_live ts click s questions q :
  Live s →
  flags_agree s →
  editing_mode s = false →
  truthy (current_section s) = true →
  sections s !! current_section s = Some questions →
  questions !! current_question_index s = Some q →
  followup_mode s = true →
  ∃ st' out,
    display_followup_interface format_value ts (current_section s)
      (current_question_index s) click s = Some (st', out)
    ∧ Live (view st').
Proof.
  intros HL Hflags Hedit Hcs Hs Hq Hmode.
  pose proof (λ a fd, commit_live ts a fd _ _ _ _ HL Hflags Hedit Hcs Hs Hq eq_refl)
    as Hcommit.
  unfold display_followup_interface.
  case_bool_decide as Hlt.
  - apply lookup_lt_is_Some in Hlt as [fq Hfq]. rewrite Hfq. simpl.
    destruct click as [[]|]; simpl; try (by do 2 eexists).
    + destruct (truthy (strip followup_answer)); [|by do 2 eexists].
      do 2 eexists; split; [reflexivity|]. simpl.
      destruct HL as [H1 H2 H3 H4 H5 H6 H7 H8 H9].
      constructor; unf; auto. congruence.
    + rewrite (save_response_saved _ _ _ _ _ _ _ _ Hs Hq). simpl.
      do 2 eexists; split; [reflexivity|]. simpl. apply Hcommit.
  - destruct click as [[]|]; simpl; try (by do 2 eexists).
    + rewrite (save_response_saved _ _ _ _ _ _ _ _ Hs Hq). simpl.
      do 2 eexists; split; [reflexivity|]. simpl. apply Hcommit.
    + do 2 eexists; split; [reflexivity|]. simpl.
      destruct HL as [H1 H2 H3 H4 H5 H6 H7 H8 H9].
      constructor; unf; auto; done.
Qed.

Lemma question_live ts model click s questions q :
  Live s →
  flags_agree s →
  editing_mode s = false →
  truthy (current_section s) = true →
  sections s !! current_section s = Some questions →
  questions !! current_question_index s = Some q →
  followup_mode s = false →
  ∃ st' out,
    display_main_question_interface json_loads ts model (current_section s)
      (current_question_index s) q click s = Some (st', out)
    ∧ Live (view st').
Proof.
  intros HL Hflags Hedit Hcs Hs Hq Hmode.
  pose proof (λ a fd, commit_live ts a fd _ _ _ _ HL Hflags Hedit Hcs Hs Hq eq_refl)
    as Hcommit.
  unfold display_main_question_interface.
  destruct click as [[]|]; simpl; try (by do 2 eexists).
  - destruct (truthy (strip user_answer)); [|by do 2 eexists].
    destruct (validate_response _ _ _ _ _) as [[[] fqs] out].
    + rewrite (save_response_saved _ _ _ _ _ _ _ _ Hs Hq). simpl.
      do 2 eexists; split; [reflexivity|]. simpl. by apply Hcommit.
    + do 2 eexists; split; [reflexivity|]. simpl.
      destruct HL as [H1 H2 H3 H4 H5 H6 H7 H8 H9].
      constructor; unf; auto; try done.
      intros _. split; [done|]. rewrite Hs. simpl. eauto.
  - rewrite (save_response_saved _ _ _ _ _ _ _ _ Hs Hq). simpl.
    do 2 eexists; split; [reflexivity|]. simpl. by apply Hcommit.
  - do 2 eexists; split; [reflexivity|]. simpl.
    destruct HL as [H1 H2 H3 H4 H5 H6 H7 H8 H9].
    constructor; unf; auto; done.
Qed.

Lemma dispatch_live w click s :
  Live s →
  ∃ st' out,
    dispatch w click (display_progress_sidebar s) = Some (st', out)
    ∧ Live (view st').
Proof.
  intros HL0.
  pose proof (sidebar_size s (live_completed _ HL0)) as Hsize.
  pose proof (live_sidebar s HL0) as HL.
  assert (done_sections (sections (display_progress_sidebar s))
          ⊆ completed_sections (display_progress_sidebar s)) as Hsub
    by (unf; set_solver).
  unfold dispatch.
  set (s1 := display_progress_sidebar s) in *.
  case_bool_decide as Hall.
  { apply summary_live; [done|]. apply Hsize. exact Hall. }
  assert (done_sections (sections s1) ≠ dom (sections s1)) as Hnot.
  { intros Hd. apply Hall. apply Hsize. exact Hd. }
  assert (editing_mode s1 = false) as Hedit.
  { destruct (editing_mode s1) eqn:He; [|done].
    destruct Hnot. by apply (live_editing _ HL). }
  assert (flags_agree s1) as Hflags.
  { destruct (live_flags _ HL) as [?|[_ ?]]; done. }
  rewrite Hedit, orb_false_r. cbn [negb].
  destruct (truthy (current_section s1)) eqn:Hcs; cbn [negb].
  - destruct (live_section _ HL Hcs) as [questions Hq]. rewrite Hq.
    cbn [mbind option_bind].
    case_bool_decide as Hlen.
    + do 2 eexists; split; [reflexivity|]. simpl.
      assert (followup_mode s1 = false) as Hmode.
      { destruct (followup_mode s1) eqn:Hm; [|done].
        destruct (live_followup _ HL Hm) as [_ [q Hq']].
        unfold question_at in Hq'. rewrite Hq in Hq'.
        cbn [mbind option_bind] in Hq'.
        apply lookup_lt_Some in Hq'. lia. }
      destruct HL as [H1 H2 H3 H4 H5 H6 H7 H8 H9].
      constructor; unf; auto; done.
    + destruct (questions !! current_question_index s1) as [q|] eqn:Hqi;
        [|apply lookup_ge_None in Hqi; lia].
      cbn [mbind option_bind]. destruct (followup_mode s1) eqn:Hmode.
      * by eapply followup_live.
      * by eapply question_live.
  - by apply selection_live.
Qed.

Lemma fresh_bank_live bank :
  fresh_bank bank → bank ≠ ∅ → Live (set_sections bank (view (Unset None))).
Proof.
  intros Hfresh Hne.
  assert (∀ section j q,
    bank !! section ≫= (.!! j) = Some q → q_answered q = false) as Hno.
  { intros section j q. destruct (bank !! section) as [qs|] eqn:Hs; [|done].
    simpl. intros Hq. specialize (Hfresh _ _ Hs).
    rewrite Forall_lookup in Hfresh. by apply (Hfresh j). }
  constructor; unf; auto; try done.
  - exists 0. intros j q Hq. rewrite (Hno _ _ _ Hq). split; [done | lia].
  - left. intros section j. rewrite lookup_empty. simpl. split.
    + intros [? ?]; done.
    + intros (q & Hq & Ht). rewrite (Hno _ _ _ Hq) in Ht. done.
Qed.

Lemma main_inv w click s :
  Inv s →
  fresh_bank (bpr_json w) →
  ∃ st' out,
    main json_loads format_value w click (Keys s) = Some (st', out)
    ∧ Inv (view st').
Proof.
  intros HI Hfresh. destruct (api_key w) eqn:Hkey.
  2:{ rewrite main_no_key by done. by do 2 eexists. }
  destruct HI as [->|HL].
  - rewrite main_loading by done. case_bool_decide as Hb.
    + do 2 eexists; split; [reflexivity|]. left. simpl. by rewrite Hb.
    + destruct (dispatch_live w click _ (fresh_bank_live _ Hfresh Hb))
        as (st' & out & H1 & H2).
      exists st', out. split; [done | by right].
  - rewrite main_loaded by (done || apply (live_bank _ HL)).
    destruct (dispatch_live w click _ HL) as (st' & out & H1 & H2).
    exists st', out. split; [done | by right].
Qed.

Lemma reachable_inv st :
  reachable json_loads format_value st → Inv (view st).
Proof.
  induction 1 as [|st w click st' out _ IH Hfresh Hrun]; [by left|].
  rewrite main_keys in Hrun.
  destruct (main_inv w click _ IH Hfresh) as (st2 & out2 & H1 & H2).
  congruence.
Qed.

(** No run of a reachable session raises. *)
Lemma main_total w click st :
  reachable json_loads format_value st →
  fresh_bank (bpr_json w) →
  is_Some (main json_loads format_value w click st).
Proof.
  intros Hr Hfresh. rewrite main_keys.
  destruct (main_inv w click _ (reachable_inv _ Hr) Hfresh) as (? & ? & -> & _).
  by eexists.
Qed.

Lemma reachable_live st :
  reachable json_loads format_value st →
  sections (view st) ≠ ∅ →
  Live (view st).
Proof.
  intros Hr Hne. destruct (reachable_inv _ Hr) as [Heq|HL]; [|done].
  rewrite Heq in Hne. done.
Qed.

(** While the current question is open, neither the summary nor the
    editing screen can be chosen. *)
Lemma open_question s q :
  Live s →
  truthy (current_section s) = true →
  question_at s (current_section s) (current_question_index s) = Some q →
  q_answered q = false
  ∧ done_sections (sections s) ≠ dom (sections s)
  ∧ editing_mode s = false
  ∧ flags_agree s.
Proof.
  intros HL Hcs Hq.
  assert (q_answered q = false) as Hflag.
  { destruct (q_answered q) eqn:Ha; [|done].
    apply (live_cursor _ HL Hcs _ _ Hq) in Ha. lia. }
  assert (done_sections (sections s) ≠ dom (sections s)) as Hnot.
  { intros Hd.
    assert (current_section s ∈ done_sections (sections s)) as Hin.
    { rewrite Hd. apply elem_of_dom. by apply (live_section _ HL). }
    apply elem_of_done_at in Hin as [_ Hin].
    rewrite (Hin _ _ Hq) in Hflag. done. }
  split_and!; [done..| |].
  - destruct (editing_mode s) eqn:He; [|done].
    destruct Hnot. by apply (live_editing _ HL).
  - destruct (live_flags _ HL) as [?|[_ ?]]; done.
Qed.

Lemma dispatch_on_question w click s q :
  Live s →
  truthy (current_section s) = true →
  question_at s (current_section s) (current_question_index s) = Some q →
  dispatch w click (display_progress_sidebar s)
  = if followup_mode s then
      display_followup_interface format_value (now w) (current_section s)
        (current_question_index s) click (display_progress_sidebar s)
    else
      display_main_question_interface json_loads (now w) (Some (reply w))
        (current_section s) (current_question_index s) q click
        (display_progress_sidebar s).
Proof.
  intros HL Hcs Hq.
  destruct (open_question s q HL Hcs Hq) as (Hflag & Hnot & Hedit & _).
  pose proof (sidebar_size s (live_completed _ HL)) as Hsize.
  unfold dispatch.
  rewrite bool_decide_eq_false_2 by (intros Hall; by apply Hnot, Hsize).
  change (editing_mode (display_progress_sidebar s)) with (editing_mode s).
  change (current_section (display_progress_sidebar s)) with (current_section s).
  change (sections (display_progress_sidebar s)) with (sections s).
  change (followup_mode (display_progress_sidebar s)) with (followup_mode s).
  change (current_question_index (display_progress_sidebar s))
    with (current_question_index s).
  rewrite Hedit, Hcs. cbn [negb orb].
  apply question_at_Some in Hq as (questions & Hs & Hqi).
  rewrite Hs. cbn [mbind option_bind].
  apply lookup_lt_Some in Hqi as Hlt.
  rewrite bool_decide_eq_false_2 by lia.
  rewrite Hqi. reflexivity.
Qed.
End Preservation.

Section Claims.

Variable json_loads : pystr -> option json.
Variable format_value : json -> pystr.

Local Abbreviation main := (main json_loads format_value).
Local Abbreviation reachable := (reachable json_loads format_value).
Local Abbreviation validate_response := (validate_response json_loads).

Lemma fallback_questions_capped response_text :
  length (fallback_questions response_text) ≤ 2.
Proof. unfold fallback_questions. rewrite length_take. lia. Qed.

(** The verdict on any reply: adequate without questions, or follow-up
    with the decoded list (the empty list when the JSON value is not a
    list), or follow-up with the at most two questions of the fallback. *)
Lemma validate_response_cases model question user_answer context :
  let verdict := (validate_response model question user_answer context).1 in
  verdict = (true, [])
  ∨ (∃ t part v,
       model = Some (Text t)
       ∧ after_first NEEDS_FOLLOWUP (strip t) = Some part
       ∧ json_loads (strip part) = Some v
       ∧ verdict = (false, default [] (as_list v)))
  ∨ (∃ t, model = Some (Text t)
          ∧ verdict = (false, fallback_questions (strip t))
          ∧ length verdict.2 ≤ 2).
Proof.
  cbv zeta. unfold validate_response.
  destruct model as [[|t]|]; [by left| |by left].
  destruct (startswith ADEQUATE (strip t)); [by left|].
  destruct (startswith NEEDS_FOLLOWUP (strip t)); [|by left].
  destruct (after_first NEEDS_FOLLOWUP (strip t)) as [part|] eqn:Hpart;
    cbn [mbind option_bind].
  - destruct (json_loads (strip part)) as [v|] eqn:Hv.
    + right. left. exists t, part, v. split_and!; done.
    + right. right. exists t. split_and!; [done..|].
      apply fallback_questions_capped.
  - right. right. exists t. split_and!; [done..|].
    apply fallback_questions_capped.
Qed.

Lemma validate_response_fail_open r question user_answer context :
  fail_open r →
  (validate_response (Some r) question user_answer context).1 = (true, []).
Proof.
  unfold validate_response. destruct r as [|t]; simpl; [done|].
  intros [-> ->]. done.
Qed.

Lemma main_on_question w click st q :
  reachable st →
  api_key w = true →
  truthy (current_section (view st)) = true →
  question_at (view st) (current_section (view st))
    (current_question_index (view st)) = Some q →
  Live (view st)
  ∧ main w click st
    = if followup_mode (view st) then
        display_followup_interface format_value (now w)
          (current_section (view st)) (current_question_index (view st)) click
          (display_progress_sidebar (view st))
      else
        display_main_question_interface json_loads (now w) (Some (reply w))
          (current_section (view st)) (current_question_index (view st)) q
          click (display_progress_sidebar (view st)).
Proof.
  intros Hr Hkey Hcs Hq.
  assert (sections (view st) ≠ ∅) as Hne.
  { intros He. unfold question_at in Hq. rewrite He, lookup_empty in Hq. done. }
  pose proof (reachable_live _ _ _ Hr Hne) as HL. split; [done|].
  rewrite main_loaded by done. by apply dispatch_on_question.
Qed.

(** C5 (as amended): fail-open.  On the question screen, when the trimmed
    answer is not empty and the classifier call raises or answers with
    neither marker, the verdict is adequate without follow-ups, the
    response is saved with the trimmed answer and no follow-ups, and the
    question index advances by one. *)
Theorem submit_fails_open w st q user_answer :
  reachable st →
  api_key w = true →
  truthy (current_section (view st)) = true →
  question_at (view st) (current_section (view st))
    (current_question_index (view st)) = Some q →
  followup_mode (view st) = false →
  truthy (strip user_answer) = true →
  fail_open (reply w) →
  (validate_response (Some (reply w)) (q_question q) user_answer
     (q_context q)).1 = (true, [])
  ∧ ∃ s' out,
      main w (Some (SubmitAnswer user_answer)) st = Some (Keys s', out)
      ∧ response_at s' (current_section (view st))
          (current_question_index (view st))
        = Some {| answer := strip user_answer; followup := [];
                  timestamp := now w |}
      ∧ current_question_index s' = current_question_index (view st) + 1
      ∧ current_section s' = current_section (view st)
      ∧ followup_mode s' = false.
Proof.
  intros Hr Hkey Hcs Hq Hmode Hans Hfail.
  pose proof (validate_response_fail_open _ (q_question q) user_answer
                (q_context q) Hfail) as Hv.
  split; [done|].
  destruct (main_on_question w (Some (SubmitAnswer user_answer)) st q)
    as [HL ->]; [done..|].
  rewrite Hmode. unfold display_main_question_interface. rewrite Hans.
  destruct (validate_response _ _ _ _) as [[adequate fqs] out].
  simpl in Hv. injection Hv as -> ->.
  apply question_at_Some in Hq as (questions & Hs & Hqi).
  rewrite (save_response_saved _ _ _ _ _ _ questions q) by done.
  simpl. do 2 eexists. split; [reflexivity|]. simpl.
  split_and!; [|done..].
  unfold response_at. simpl. rewrite lookup_saved_response.
  rewrite decide_True; done.
Qed.

(** C8: outside follow-up mode the follow-up keys hold their initial
    values, in every reachable state of the session. *)
Theorem followup_state_cleared st :
  reachable st →
  followup_mode (view st) = false →
  followup_cleared (view st).
Proof.
  intros Hr Hmode. destruct (reachable_inv _ _ _ Hr) as [->|HL].
  - repeat split.
  - by apply (live_normal _ HL).
Qed.


Lemma startswith_app prefix rest : startswith prefix (prefix ++ rest) = true.
Proof.
  induction prefix as [|c prefix IH]; simpl; [done|].
  by rewrite N.eqb_refl, IH.
Qed.

Lemma after_first_app sep rest : after_first sep (sep ++ rest) = Some rest.
Proof.
  assert (∀ s, after_first sep s
               = if startswith sep s then Some (skipn (length sep) s)
                 else match s with [] => None | _ :: s' => after_first sep s' end)
    as -> by (by intros []).
  rewrite startswith_app. f_equal. by rewrite drop_app_length.
Qed.

(** A reply made of the follow-up marker and JSON text gives the decoded
    list, whatever its length, and no question when the value is not a
    list. *)
Lemma validate_response_decoded t rest v question user_answer context :
  strip t = NEEDS_FOLLOWUP ++ rest →
  json_loads (strip rest) = Some v →
  (validate_response (Some (Text t)) question user_answer context).1
  = (false, default [] (as_list v)).
Proof.
  intros Ht Hv. unfold validate_response. rewrite Ht.
  replace (startswith ADEQUATE (NEEDS_FOLLOWUP ++ rest)) with false
    by reflexivity.
  rewrite startswith_app, after_first_app. simpl. rewrite Hv. done.
Qed.

(** C10: a reply that starts with the follow-up marker and continues with
    JSON text that is not a list gives the follow-up verdict with no
    question; follow-up mode is entered with nothing pending, and the next
    run shows the combined answer: the original answer followed by two
    newlines, the header Additional Details: and a newline, with no detail
    line. *)
Theorem non_list_followup_is_exhausted w w' st q user_answer t rest v :
  reachable st →
  api_key w = true →
  truthy (current_section (view st)) = true →
  question_at (view st) (current_section (view st))
    (current_question_index (view st)) = Some q →
  followup_mode (view st) = false →
  truthy (strip user_answer) = true →
  reply w = Text t →
  strip t = NEEDS_FOLLOWUP ++ rest →
  json_loads (strip rest) = Some v →
  as_list v = None →
  api_key w' = true →
  (validate_response (Some (reply w)) (q_question q) user_answer
     (q_context q)).1 = (false, [])
  ∧ ∃ s1 out1,
      main w (Some (SubmitAnswer user_answer)) st = Some (Keys s1, out1)
      ∧ followup_mode s1 = true
      ∧ followup_questions s1 = []
      ∧ followup_answers s1 = []
      ∧ current_followup_index s1 = 0
      ∧ original_answer s1 = strip user_answer
      ∧ responses s1 = responses (view st)
      ∧ current_question_index s1 = current_question_index (view st)
      ∧ ∃ st2,
          main w' None (Keys s1)
          = Some (st2,
                  [FinalCombined
                     (strip user_answer
                      ++ [nl; nl] ++ lit "Additional Details:" ++ [nl])]).
Proof.
  intros Hr Hkey Hcs Hq Hmode Hans Hreply Ht Hv Hlist Hkey'.
  pose proof (validate_response_decoded t rest v (q_question q) user_answer
                (q_context q) Ht Hv) as Hverdict.
  rewrite Hlist in Hverdict.
  change (default [] None) with (@nil json) in Hverdict.
  rewrite Hreply. split; [done|].
  destruct (main_on_question w (Some (SubmitAnswer user_answer)) st q)
    as [HL Hmain]; [done..|].
  rewrite Hmain, Hmode, Hreply.
  destruct (dispatch_live json_loads format_value w
              (Some (SubmitAnswer user_answer)) _ HL) as (st1 & o1 & Hd & HL1).
  rewrite (dispatch_on_question _ _ _ _ _ q) in Hd by done.
  rewrite Hmode, Hreply in Hd. revert Hd.
  unfold display_main_question_interface. rewrite Hans.
  destruct (validate_response _ _ _ _) as [[adequate fqs] out].
  simpl in Hverdict. injection Hverdict as -> ->.
  intros [= <- <-]. do 2 eexists. split; [reflexivity|]. simpl.
  split_and!; [done..|].
  rewrite main_loaded by (done || apply (live_bank _ HL1)).
  rewrite (dispatch_on_question _ _ _ _ _ q) by done.
  simpl. eexists. unfold display_followup_interface. simpl. reflexivity.
Qed.

Lemma save_response_keeps ts section i a fd s s1 :
  save_response ts section i a fd s = Some s1 →
  followup_mode s1 = followup_mode s
  ∧ current_question_index s1 = current_question_index s
  ∧ current_section s1 = current_section s.
Proof.
  unfold save_response. simpl.
  destruct (sections s !! section) as [qs|]; simpl; [|done].
  destruct (qs !! i); simpl; [|done]. intros [= <-]. done.
Qed.

(** What a run over a loaded bank does to the responses. *)
Lemma dispatch_responses w click s st' out :
  Live s →
  dispatch json_loads format_value w click (display_progress_sidebar s)
  = Some (st', out) →
  responses (view st') = responses s
  ∨ (followup_mode s = false ∧ followup_mode (view st') = false)
  ∨ (followup_mode s = true
     ∧ (click = Some UseOriginal ∨ click = Some AcceptFinal)).
Proof.
  intros HL.
  pose proof (sidebar_size s (live_completed _ HL)) as Hsize.
  unfold dispatch.
  change (editing_mode (display_progress_sidebar s)) with (editing_mode s).
  change (current_section (display_progress_sidebar s)) with (current_section s).
  change (sections (display_progress_sidebar s)) with (sections s).
  change (followup_mode (display_progress_sidebar s)) with (followup_mode s).
  change (current_question_index (display_progress_sidebar s))
    with (current_question_index s).
  case_bool_decide as Hall.
  { apply Hsize in Hall. unfold display_summary.
    destruct click as [[]|]; simpl; try (intros [= <- <-]; by left).
    - destruct (edit_shown _ _ _); intros [= <- <-]; by left.
    - intros [= <- <-]. right. left. split; [|done].
      destruct (followup_mode s) eqn:Hm; [|done].
      destruct (live_followup _ HL Hm) as [Hcs [q Hq]].
      by destruct (open_question s q HL Hcs Hq) as (_ & Hnot & _). }
  assert (editing_mode s = false) as Hedit.
  { destruct (editing_mode s) eqn:He; [|done].
    destruct Hall. by apply Hsize, (live_editing _ HL). }
  rewrite Hedit, orb_false_r. cbn [negb].
  destruct (truthy (current_section s)) eqn:Hcs; cbn [negb].
  2:{ unfold display_section_selection. case_bool_decide.
      - intros [= <- <-]. by left.
      - destruct click as [[]|]; simpl; try (intros [= <- <-]; by left).
        case_bool_decide; [|intros [= <- <-]; by left].
        destruct (sections s !! section_name); simpl; [|done].
        destruct (first_unanswered l); intros [= <- <-]; by left. }
  destruct (sections s !! current_section s) as [questions|]; [|done].
  cbn [mbind option_bind].
  case_bool_decide; [intros [= <- <-]; by left|].
  destruct (questions !! current_question_index s) as [q|]; [|done].
  cbn [mbind option_bind].
  destruct (followup_mode s) eqn:Hmode.
  - unfold display_followup_interface. case_bool_decide.
    + destruct (followup_questions _ !! _); [|done]. simpl.
      destruct click as [[]|]; simpl; try (intros [= <- <-]; by left).
      * destruct (truthy (strip followup_answer)); intros [= <- <-]; by left.
      * intros _. right. right. auto.
    + destruct click as [[]|]; simpl; try (intros [= <- <-]; by left).
      intros _. right. right. auto.
  - unfold display_main_question_interface.
    destruct click as [[]|]; cbv beta iota; try (intros [= <- <-]; by left).
    + destruct (truthy (strip user_answer)); [|intros [= <- <-]; by left].
      destruct (validate_response _ _ _ _) as [[[] fqs] o].
      * destruct (save_response _ _ _ _ _ _) as [s1|] eqn:Hsave; [|done].
        simpl. intros [= <- <-]. right. left. split; [done|]. simpl.
        apply save_response_keeps in Hsave as (-> & _). done.
      * intros [= <- <-]. by left.
    + destruct (save_response _ _ _ _ _ _) as [s1|] eqn:Hsave; [|done].
      simpl. intros [= <- <-]. right. left. split; [done|]. simpl.
      apply save_response_keeps in Hsave as (-> & _). done.
Qed.

(** C3: while the session is in follow-up mode, and in the run that enters
    it, no run other than a click on Use Original Answer or Accept Final
    Answer changes the stored responses; Start Over clears the follow-up
    keys and leaves the responses, the current section and the question
    index as they were. *)
Theorem followup_commits_nothing w click st :
  reachable st →
  fresh_bank (bpr_json w) →
  ∃ st' out,
    main w click st = Some (st', out)
    ∧ (followup_mode (view st) = true ∨ followup_mode (view st') = true →
       click ≠ Some UseOriginal →
       click ≠ Some AcceptFinal →
       responses (view st') = responses (view st))
    ∧ (click = Some StartOver →
       api_key w = true →
       followup_mode (view st) = true →
       length (followup_questions (view st)) ≤ current_followup_index (view st) →
       followup_mode (view st') = false
       ∧ followup_cleared (view st')
       ∧ responses (view st') = responses (view st)
       ∧ current_question_index (view st') = current_question_index (view st)
       ∧ current_section (view st') = current_section (view st)).
Proof.
  intros Hr Hfresh.
  destruct (main_total json_loads format_value w click st Hr Hfresh)
    as [[st' out] Hmain].
  exists st', out. split; [done|]. split.
  - intros Hmodes Hn1 Hn2.
    destruct (api_key w) eqn:Hkey.
    2:{ rewrite main_no_key in Hmain by done. by injection Hmain as <- <-. }
    assert (∀ s, Live s → followup_mode s = followup_mode (view st) →
                 responses s = responses (view st) →
                 dispatch json_loads format_value w click
                   (display_progress_sidebar s) = Some (st', out) →
                 responses (view st') = responses (view st)) as Hstep.
    { intros s HL Hm Hresp Hd.
      destruct (dispatch_responses w click s st' out HL Hd)
        as [Hsame|[[H1 H2]|[_ [?|?]]]]; [congruence| |done..].
      destruct Hmodes; congruence. }
    destruct (reachable_inv _ _ _ Hr) as [Heq|HL].
    + rewrite main_loading in Hmain by (done || by rewrite Heq).
      case_bool_decide as Hb; [by injection Hmain as <- <-|].
      rewrite Heq in Hmain.
      apply (Hstep _ (fresh_bank_live _ Hfresh Hb)); [by rewrite Heq..|done].
    + rewrite main_loaded in Hmain by (done || apply (live_bank _ HL)).
      by apply (Hstep _ HL).
  - intros -> Hkey Hmode Hlen.
    destruct (reachable_inv _ _ _ Hr) as [Heq|HL]; [by rewrite Heq in Hmode|].
    destruct (live_followup _ HL Hmode) as [Hcs [q Hq]].
    destruct (main_on_question w (Some StartOver) st q) as [_ Hm]; [done..|].
    rewrite Hm, Hmode in Hmain. revert Hmain.
    unfold display_followup_interface.
    change (current_followup_index (display_progress_sidebar (view st)))
      with (current_followup_index (view st)).
    change (followup_questions (display_progress_sidebar (view st)))
      with (followup_questions (view st)).
    rewrite bool_decide_eq_false_2 by lia.
    intros [= <- <-]. simpl. repeat split.
Qed.

Lemma first_without_response_at (of_section : gmap nat Response) n i :
  i < n →
  of_section !! i = None →
  (∀ j, j < i → is_Some (of_section !! j)) →
  first_without_response of_section n = i.
Proof.
  intros Hlt Hi Hbefore. unfold first_without_response.
  assert (list_find (fun i => of_section !! i = None) (seq 0 n) = Some (i, i))
    as ->; [|done].
  apply list_find_Some. split_and!; [by apply lookup_seq|done|].
  intros j y Hj Hji. apply lookup_seq in Hj as [-> _]. simpl.
  destruct (Hbefore j Hji) as [r ->]. done.
Qed.

(** In every reachable state the flags agree with the stored responses,
    unless the store is empty while every section counts as done: the
    state Start New Questionnaire leaves. *)
Lemma flags_agree_until_restart st :
  reachable st →
  flags_agree (view st)
  ∨ (responses (view st) = ∅
     ∧ done_sections (sections (view st)) = dom (sections (view st))).
Proof.
  intros Hr. destruct (reachable_inv _ _ _ Hr) as [->|HL].
  - left. intros section i. unfold response_at, question_at. simpl.
    rewrite !lookup_empty. simpl. split; [intros [? ?]; done|].
    intros (q & ? & _). done.
  - apply (live_flags _ HL).
Qed.

(** A section whose questions all carry the flag is never listed on the
    section screen: the sidebar has put it into [completed_sections]. *)
Lemma done_section_not_listed s name questions :
  sections s !! name = Some questions →
  section_done questions →
  name ∈ completed_sections (display_progress_sidebar s).
Proof.
  intros Hs Hd. unfold display_progress_sidebar. simpl.
  apply elem_of_union_r, elem_of_done_sections. eauto.
Qed.

(** With the editing flag set, [main] still shows the summary: the
    editing screen is not reached. *)
Lemma summary_preempts_editing st :
  reachable st →
  editing_mode (view st) = true →
  size (completed_sections (display_progress_sidebar (view st)))
  = size (sections (view st)).
Proof.
  intros Hr He. destruct (reachable_inv _ _ _ Hr) as [Heq|HL].
  - by rewrite Heq in He.
  - apply (sidebar_size _ (live_completed _ HL)). by apply (live_editing _ HL).
Qed.

(** C4: Start on a listed section makes it the current section and puts
    the question index on the first question without a response; the
    position is the one the spec describes (the section length when every
    question has a response). *)
Theorem start_resumes_at_first_unanswered w st name questions :
  reachable st →
  api_key w = true →
  sections (view st) !! name = Some questions →
  truthy (current_section (view st)) = false →
  name ∉ completed_sections (display_progress_sidebar (view st)) →
  ∃ s' out,
    main w (Some (Start name)) st = Some (Keys s', out)
    ∧ current_section s' = name
    ∧ current_question_index s'
      = first_without_response (default ∅ (responses (view st) !! name))
          (length questions)
    ∧ current_question_index s' < length questions
    ∧ responses s' = responses (view st).
Proof.
  intros Hr Hkey Hsec Hcs Hlisted.
  assert (sections (view st) ≠ ∅) as Hne.
  { intros He. rewrite He, lookup_empty in Hsec. done. }
  pose proof (reachable_live _ _ _ Hr Hne) as HL.
  set (s := view st) in *.
  assert (name ∉ done_sections (sections s)) as Hnd.
  { intros Hin. apply Hlisted. unfold display_progress_sidebar. simpl.
    set_solver. }
  assert (done_sections (sections s) ≠ dom (sections s)) as Hnot.
  { intros Hd. apply Hnd. rewrite Hd. apply elem_of_dom. eauto. }
  assert (editing_mode s = false) as Hedit.
  { destruct (editing_mode s) eqn:He; [|done].
    destruct Hnot. by apply (live_editing _ HL). }
  assert (flags_agree s) as Hflags.
  { destruct (live_flags _ HL) as [?|[_ ?]]; done. }
  pose proof (sidebar_size s (live_completed _ HL)) as Hsize.
  rewrite main_loaded by done. fold s. unfold dispatch.
  rewrite bool_decide_eq_false_2 by (intros Hall; by apply Hnot, Hsize).
  change (editing_mode (display_progress_sidebar s)) with (editing_mode s).
  change (current_section (display_progress_sidebar s)) with (current_section s).
  rewrite Hedit, Hcs. cbn [negb orb].
  unfold display_section_selection.
  change (sections (display_progress_sidebar s)) with (sections s).
  assert (name ∈ dom (sections s)
                 ∖ completed_sections (display_progress_sidebar s)) as Hin.
  { apply elem_of_difference. split; [|done]. apply elem_of_dom. eauto. }
  rewrite bool_decide_eq_false_2 by set_solver.
  rewrite bool_decide_eq_true_2 by done.
  rewrite Hsec. cbn [mbind option_bind].
  destruct (first_unanswered questions) as [i|] eqn:Hfirst.
  2:{ apply first_unanswered_None in Hfirst. destruct Hnd.
      apply elem_of_done_sections. eauto. }
  apply first_unanswered_Some in Hfirst as (q & Hi & Hqi & Hbefore).
  do 2 eexists. split; [reflexivity|]. simpl.
  apply lookup_lt_Some in Hi as Hlt. split_and!; [done| |done..].
  assert (∀ j, default ∅ (responses s !! name) !! j = response_at s name j)
    as Hresp.
  { intros j. unfold response_at. destruct (responses s !! name); done. }
  symmetry. apply first_without_response_at; [done| |].
  - rewrite Hresp. apply eq_None_not_Some. intros Hsome.
    apply Hflags in Hsome as (q' & Hq' & Ht).
    unfold question_at in Hq'. rewrite Hsec in Hq'. simpl in Hq'. congruence.
  - intros j Hj. rewrite Hresp. apply Hflags.
    destruct (questions !! j) as [y|] eqn:Hy.
    + exists y. split; [|by apply (Hbefore j)].
      unfold question_at. rewrite Hsec. done.
    + apply lookup_ge_None in Hy. lia.
Qed.

Lemma combined_answer_concat original fas :
  combined_answer format_value original fas
  = original ++ details_header
    ++ concat (List.map (detail_line format_value) fas).
Proof.
  unfold combined_answer. rewrite (app_assoc original).
  generalize (original ++ details_header) as start.
  induction fas as [|fa fas IH]; intros start; simpl.
  - by rewrite app_nil_r.
  - rewrite IH. by rewrite <- app_assoc.
Qed.

(** C6: with the follow-ups exhausted, the screen shows the combined
    answer, which is the original answer, the "Additional Details" header
    and one line per collected pair in the order of collection; the line of
    a pair whose question is a string is the marker, the question, a colon
    and the answer. *)
Theorem combined_answer_rendering ts section i s :
  length (followup_questions s) ≤ current_followup_index s →
  display_followup_interface format_value ts section i None s
  = Some (Keys s,
          [FinalCombined
             (original_answer s ++ details_header
              ++ concat (List.map (detail_line format_value)
                           (followup_answers s)))])
  ∧ ∀ question answer,
      detail_line format_value
        {| fa_question := JString question; fa_answer := answer |}
      = bullet ++ lit " " ++ question ++ lit ": " ++ answer ++ [nl].
Proof.
  intros Hlen. split; [|done].
  unfold display_followup_interface.
  rewrite bool_decide_eq_false_2 by lia.
  by rewrite combined_answer_concat.
Qed.

End Claims.

(** C7: on the editing screen, Save Changes with a non-blank text replaces
    the answer of the edited response by the trimmed text and its timestamp
    by the current time, keeps its follow-ups and every other response, and
    leaves editing mode; Cancel leaves editing mode and changes no
    response; no click there calls the classifier. *)
Theorem editing_frame ts s section i questions q of_section r :
  editing_question s = Some (section, i) →
  sections s !! section = Some questions →
  questions !! i = Some q →
  responses s !! section = Some of_section →
  of_section !! i = Some r →
  (∀ new_answer, truthy (strip new_answer) = true →
     ∃ s' out,
       display_editing_interface ts (Some (SaveChanges new_answer)) s
       = Some (Keys s', out)
       ∧ response_at s' section i
         = Some {| answer := strip new_answer; followup := followup r;
                   timestamp := ts |}
       ∧ (∀ section' i', (section', i') ≠ (section, i) →
            response_at s' section' i' = response_at s section' i')
       ∧ sections s' = sections s
       ∧ editing_mode s' = false
       ∧ editing_question s' = None)
  ∧ (display_editing_interface ts (Some CancelEdit) s
     = Some (Keys (set_editing_question None (set_editing_mode false s)), []))
  ∧ (∀ click st' out,
       display_editing_interface ts click s = Some (st', out) →
       ∀ question user_answer context,
         Generate question user_answer context ∉ out).
Proof.
  intros Hedit Hs Hq Hrs Hr.
  unfold display_editing_interface. rewrite Hedit. simpl.
  rewrite Hs. simpl. rewrite Hq. simpl. rewrite Hrs. simpl. rewrite Hr. simpl.
  split_and!.
  - intros new_answer ->. do 2 eexists. split; [reflexivity|].
    unfold response_at. simpl. split_and!; [|intros section' i' Hne|done..].
    + rewrite lookup_insert_eq. simpl. by rewrite lookup_insert_eq.
    + destruct (decide (section' = section)) as [->|Hsec].
      * rewrite lookup_insert_eq, Hrs. simpl.
        rewrite lookup_insert_ne; [done | congruence].
      * by rewrite lookup_insert_ne.
  - done.
  - intros click st' out Hrun question user_answer context Hin.
    destruct click as [[]|]; simpl in Hrun;
      try (injection Hrun as <- <-; set_solver).
    destruct (truthy _); injection Hrun as <- <-; set_solver.
Qed.

(** ** Concrete runs *)

Lemma session_reachable json_loads format_value runs st st' :
  reachable json_loads format_value st →
  Forall (fun run => fresh_bank (bpr_json run.1)) runs →
  session json_loads format_value runs st = Some st' →
  reachable json_loads format_value st'.
Proof.
  revert st. induction runs as [|[w c] runs IH]; intros st Hr Hf; simpl.
  - by intros [= <-].
  - apply Forall_cons in Hf as [Hw Hf]. simpl in Hw.
    destruct (main json_loads format_value w c st) as [[st1 out]|] eqn:Hm;
      [|done].
    intros Hs. apply (IH st1); [|done..]. by eapply reach_run.
Qed.

Lemma bank_fresh : fresh_bank bank.
Proof.
  intros name questions H. unfold bank in H.
  apply lookup_singleton_Some in H as [_ <-].
  repeat constructor.
Qed.

Lemma play_reachable runs st :
  Forall (fun run => bpr_json run.1 = bank) runs →
  session Decoder.json_loads plain_text runs (Unset None) = Some st →
  reachable Decoder.json_loads plain_text st.
Proof.
  intros Hbank Hs. eapply session_reachable; [apply reach_new| |exact Hs].
  eapply Forall_impl; [exact Hbank|]. intros run ->. apply bank_fresh.
Qed.

Ltac played := vm_compute; reflexivity.

Example at_question_played :
  session Decoder.json_loads plain_text to_question (Unset None)
  = Some at_question.
Proof. played. Qed.

Example at_resume_played :
  session Decoder.json_loads plain_text to_resume (Unset None)
  = Some at_resume.
Proof. played. Qed.

Example at_exhausted_played :
  session Decoder.json_loads plain_text to_exhausted (Unset None)
  = Some at_exhausted.
Proof. played. Qed.

Example at_restart_played :
  session Decoder.json_loads plain_text to_restart (Unset None)
  = Some at_restart.
Proof. played. Qed.

Example at_editing_played :
  session Decoder.json_loads plain_text to_editing (Unset None)
  = Some at_editing.
Proof. played. Qed.

Lemma at_question_reachable :
  reachable Decoder.json_loads plain_text at_question.
Proof.
  apply (play_reachable to_question);
    [repeat constructor | exact at_question_played].
Qed.

Lemma at_resume_reachable :
  reachable Decoder.json_loads plain_text at_resume.
Proof.
  apply (play_reachable to_resume);
    [repeat constructor | exact at_resume_played].
Qed.

Lemma at_exhausted_reachable :
  reachable Decoder.json_loads plain_text at_exhausted.
Proof.
  apply (play_reachable to_exhausted);
    [repeat constructor | exact at_exhausted_played].
Qed.

Lemma at_restart_reachable :
  reachable Decoder.json_loads plain_text at_restart.
Proof.
  apply (play_reachable to_restart);
    [repeat constructor | exact at_restart_played].
Qed.

Lemma at_editing_reachable :
  reachable Decoder.json_loads plain_text at_editing.
Proof.
  apply (play_reachable to_editing);
    [repeat constructor | exact at_editing_played].
Qed.

Example combined_answer_of_the_spec :
  combined_answer plain_text (lit "A")
    [{| fa_question := JString (lit "Q1"); fa_answer := lit "R1" |};
     {| fa_question := JString (lit "Q2"); fa_answer := lit "R2" |}]
  = lit "A" ++ [nl; nl] ++ lit "Additional Details:" ++ [nl]
    ++ bullet ++ lit " Q1: R1" ++ [nl]
    ++ bullet ++ lit " Q2: R2" ++ [nl].
Proof. reflexivity. Qed.

(** C1 (defect of the code): after Start New Questionnaire both questions
    of Company still carry the answered flag although no response is stored
    any more. *)
Theorem restart_keeps_answered_flags :
  session Decoder.json_loads plain_text to_restart (Unset None)
  = Some at_restart
  ∧ reachable Decoder.json_loads plain_text at_restart
  ∧ (∃ q, question_at (view at_restart) Company 0 = Some q
          ∧ q_answered q = true)
  ∧ response_at (view at_restart) Company 0 = None
  ∧ ¬ flags_agree (view at_restart).
Proof.
  assert (question_at (view at_restart) Company 0
          = Some (mark_answered (ask "What is the company name?"))) as Hq
    by (vm_compute; reflexivity).
  assert (response_at (view at_restart) Company 0 = None) as Hr
    by (vm_compute; reflexivity).
  split; [exact at_restart_played|].
  split; [exact at_restart_reachable|].
  split; [eexists; split; [exact Hq | reflexivity]|].
  split; [exact Hr|].
  intros Hflags. destruct (Hflags Company 0) as [_ Hback].
  destruct Hback as [r Hsome]; [eexists; split; [exact Hq | reflexivity]|].
  rewrite Hr in Hsome. discriminate Hsome.
Qed.

(** C2 (defect of the code): a reply with three questions in a JSON list
    is returned whole, and follow-up mode is entered with three pending
    questions. *)
Theorem json_list_is_not_capped :
  (validate_response Decoder.json_loads (Some (Text three_questions))
     (lit "What is the company name?") (lit "SQL") None).1
  = (false, [JString (lit "Which product?"); JString (lit "Which version?");
             JString (lit "Who hosts it?")])
  ∧ reachable Decoder.json_loads plain_text at_question
  ∧ ∃ s' out,
      main Decoder.json_loads plain_text (world (Text three_questions))
        (Some (SubmitAnswer (lit "SQL"))) at_question
      = Some (Keys s', out)
      ∧ followup_mode s' = true
      ∧ length (followup_questions s') = 3.
Proof.
  split; [vm_compute; reflexivity|].
  split; [exact at_question_reachable|].
  destruct (main Decoder.json_loads plain_text (world (Text three_questions))
              (Some (SubmitAnswer (lit "SQL"))) at_question)
    as [[[kept|s'] out]|] eqn:Hrun; try (vm_compute in Hrun; discriminate).
  exists s', out. split; [reflexivity|].
  assert (Some (followup_mode s', length (followup_questions s'))
          = Some (true, 3)) as [= -> ->]; [|split; reflexivity].
  change (Some (followup_mode s', length (followup_questions s')))
    with ((fun r : Store * list Output =>
             (followup_mode (view r.1), length (followup_questions (view r.1))))
          <$> Some (Keys s', out)).
  rewrite <- Hrun. vm_compute. reflexivity.
Qed.

(** C9 (defect of the code): after Start New Questionnaire the summary is
    shown again and the report it offers has an empty list for Company,
    whose two questions get no entry and no "Not answered" marker. *)
Theorem report_skips_sections_without_response :
  session Decoder.json_loads plain_text to_restart (Unset None)
  = Some at_restart
  ∧ reachable Decoder.json_loads plain_text at_restart
  ∧ length <$> sections (view at_restart) !! Company = Some 2
  ∧ ∃ st' r,
      main Decoder.json_loads plain_text (world Raises) None at_restart
      = Some (st', [Notice LSuccess; Download r])
      ∧ questionnaire_responses r !! Company = Some [].
Proof.
  split; [exact at_restart_played|].
  split; [exact at_restart_reachable|].
  split; [vm_compute; reflexivity|].
  destruct (main Decoder.json_loads plain_text (world Raises) None
              at_restart) as [[st' out]|] eqn:Hrun;
    [|vm_compute in Hrun; discriminate].
  assert (Some out
          = Some [Notice LSuccess;
                  Download (download_data (now (world Raises))
                              (display_progress_sidebar
                                 (view at_restart)))]) as [= ->].
  { change (Some out) with (snd <$> Some (st', out)). rewrite <- Hrun.
    vm_compute. reflexivity. }
  do 2 eexists. split; [reflexivity|]. vm_compute. reflexivity.
Qed.

(** The report lists every question of a section that has at least one
    response, with the marker for the questions without one. *)
Lemma section_responses_lookup all name questions of_section i :
  all !! name = Some of_section →
  section_responses all name questions !! i
  = (fun question => response_data name question (of_section !! i))
    <$> questions !! i.
Proof.
  intros H. unfold section_responses. rewrite H. apply list_lookup_imap.
Qed.

Lemma download_data_lookup ts s name questions of_section :
  sections s !! name = Some questions →
  responses s !! name = Some of_section →
  ∃ entries,
    questionnaire_responses (download_data ts s) !! name = Some entries
    ∧ length entries = length questions
    ∧ ∀ i question,
        questions !! i = Some question →
        entries !! i = Some (response_data name question (of_section !! i)).
Proof.
  intros Hs Hr. unfold download_data. simpl.
  rewrite map_lookup_imap, Hs. simpl. eexists. split; [reflexivity|].
  unfold section_responses. rewrite Hr. split; [apply length_imap|].
  intros i question Hq. by rewrite list_lookup_imap, Hq.
Qed.

(** ** The theorems at work on the concrete session *)

Lemma submit_fails_open_witness :
  (validate_response Decoder.json_loads (Some Raises)
     (lit "What is the company name?") (lit " SQL ") None).1 = (true, [])
  ∧ ∃ s' out,
      main Decoder.json_loads plain_text (world Raises)
        (Some (SubmitAnswer (lit " SQL "))) at_question
      = Some (Keys s', out)
      ∧ response_at s' Company 0
        = Some {| answer := lit "SQL"; followup := [];
                  timestamp := lit "2024-05-01T10:00:00" |}
      ∧ current_question_index s' = 1
      ∧ current_section s' = Company
      ∧ followup_mode s' = false.
Proof.
  apply (submit_fails_open Decoder.json_loads plain_text (world Raises)
           at_question (ask "What is the company name?") (lit " SQL "));
    [exact at_question_reachable | vm_compute; reflexivity..| exact I].
Defined.

(** C5 as stated fails.  The answer " SQL " is sent to the classifier,
    whose call raises, and the response is saved with "SQL", not with the
    text that was submitted; the answer " " is not empty, and nothing is
    saved for it and the question index stays where it was. *)
Lemma submitted_answer_is_trimmed_or_rejected :
  reachable Decoder.json_loads plain_text at_question
  ∧ fail_open (reply (world Raises))
  ∧ question_at (view at_question) Company 0
    = Some (ask "What is the company name?")
  ∧ current_section (view at_question) = Company
  ∧ current_question_index (view at_question) = 0
  ∧ followup_mode (view at_question) = false
  ∧ (lit " SQL " ≠ []
     ∧ ∃ s' out,
         main Decoder.json_loads plain_text (world Raises)
           (Some (SubmitAnswer (lit " SQL "))) at_question
         = Some (Keys s', out)
         ∧ Generate (lit "What is the company name?") (lit " SQL ") None ∈ out
         ∧ answer <$> response_at s' Company 0 = Some (lit "SQL")
         ∧ lit "SQL" ≠ lit " SQL ")
  ∧ (lit " " ≠ []
     ∧ ∃ s',
         main Decoder.json_loads plain_text (world Raises)
           (Some (SubmitAnswer (lit " "))) at_question
         = Some (Keys s', [Notice LWarning])
         ∧ response_at s' Company 0 = None
         ∧ current_question_index s' = 0).
Proof.
  split; [exact at_question_reachable|]. split; [exact I|].
  do 4 (split; [vm_compute; reflexivity|]).
  split; (split; [discriminate|]).
  - do 2 eexists. split; [vm_compute; reflexivity|].
    split; [apply list_elem_of_here|].
    split; [vm_compute; reflexivity | discriminate].
  - eexists. split_and!; vm_compute; reflexivity.
Qed.

Lemma followup_state_cleared_witness :
  followup_cleared (view at_resume).
Proof.
  apply (followup_state_cleared Decoder.json_loads plain_text at_resume);
    [apply at_resume_reachable | vm_compute; reflexivity].
Defined.

Lemma non_list_followup_is_exhausted_witness :
  (validate_response Decoder.json_loads (Some (Text an_object))
     (lit "What is the company name?") (lit "SQL") None).1 = (false, [])
  ∧ ∃ s1 out1,
      main Decoder.json_loads plain_text (world (Text an_object))
        (Some (SubmitAnswer (lit "SQL"))) at_question
      = Some (Keys s1, out1)
      ∧ followup_mode s1 = true
      ∧ followup_questions s1 = []
      ∧ followup_answers s1 = []
      ∧ current_followup_index s1 = 0
      ∧ original_answer s1 = lit "SQL"
      ∧ responses s1 = ∅
      ∧ current_question_index s1 = 0
      ∧ ∃ st2,
          main Decoder.json_loads plain_text (world Raises) None (Keys s1)
          = Some (st2,
                  [FinalCombined
                     (lit "SQL"
                      ++ [nl; nl] ++ lit "Additional Details:" ++ [nl])]).
Proof.
  apply (non_list_followup_is_exhausted Decoder.json_loads plain_text
           (world (Text an_object)) (world Raises) at_question
           (ask "What is the company name?") (lit "SQL") an_object (lit " {}")
           (JObject []));
    [apply at_question_reachable | vm_compute; reflexivity..].
Defined.

Lemma followup_commits_nothing_witness :
  ∃ st' out,
    main Decoder.json_loads plain_text (world Raises) (Some StartOver)
      at_exhausted = Some (st', out)
    ∧ responses (view st') = responses (view at_exhausted)
    ∧ followup_mode (view st') = false
    ∧ followup_cleared (view st')
    ∧ current_question_index (view st') = 0
    ∧ current_section (view st') = Company.
Proof.
  destruct (followup_commits_nothing Decoder.json_loads plain_text
              (world Raises) (Some StartOver) at_exhausted
              at_exhausted_reachable bank_fresh)
    as (st' & out & Hrun & Hkeep & Hover).
  exists st', out.
  destruct (Hover eq_refl eq_refl) as (H1 & H2 & H3 & H4 & H5);
    [vm_compute; reflexivity | vm_compute; lia |].
  split; [exact Hrun|]. split; [exact H3|]. split; [exact H1|].
  split; [exact H2|]. split; [rewrite H4|rewrite H5]; vm_compute; reflexivity.
Defined.

Lemma start_resumes_at_first_unanswered_witness :
  ∃ s' out,
    main Decoder.json_loads plain_text (world Raises) (Some (Start Company))
      at_resume = Some (Keys s', out)
    ∧ current_section s' = Company
    ∧ current_question_index s' = 1
    ∧ current_question_index s' < 2
    ∧ responses s' = responses (view at_resume).
Proof.
  apply (start_resumes_at_first_unanswered Decoder.json_loads plain_text
           (world Raises) at_resume Company
           [mark_answered (ask "What is the company name?");
            ask "Which database do you use?"]);
    [apply at_resume_reachable | vm_compute; reflexivity..|].
  apply (bool_decide_unpack _). vm_compute. exact I.
Defined.

Lemma combined_answer_rendering_witness :
  display_followup_interface plain_text (lit "2024-05-01T10:00:00") Company 0
    None (view at_exhausted)
  = Some (Keys (view at_exhausted),
          [FinalCombined
             (lit "A" ++ [nl; nl] ++ lit "Additional Details:" ++ [nl]
              ++ bullet ++ lit " Q1: R1" ++ [nl]
              ++ bullet ++ lit " Q2: R2" ++ [nl])]).
Proof.
  destruct (combined_answer_rendering plain_text (lit "2024-05-01T10:00:00")
              Company 0 (view at_exhausted)) as [Hshow _];
    [vm_compute; lia|].
  rewrite Hshow. vm_compute. reflexivity.
Defined.

Lemma editing_frame_witness :
  ∃ s' out,
    display_editing_interface (lit "2024-05-02T09:00:00")
      (Some (SaveChanges (lit " Acme "))) (view at_editing)
    = Some (Keys s', out)
    ∧ response_at s' Company 0
      = Some {| answer := lit "Acme"; followup := [];
                timestamp := lit "2024-05-02T09:00:00" |}
    ∧ response_at s' Company 1
      = response_at (view at_editing) Company 1
    ∧ editing_mode s' = false.
Proof.
  destruct (editing_frame (lit "2024-05-02T09:00:00") (view at_editing)
              Company 0
              [mark_answered (ask "What is the company name?");
               mark_answered (ask "Which database do you use?")]
              (mark_answered (ask "What is the company name?"))
              (default ∅ (responses (view at_editing) !! Company))
              {| answer := Skipped; followup := [];
                 timestamp := lit "2024-05-01T10:00:00" |})
    as (Hsave & _ & _); [vm_compute; reflexivity..|].
  destruct (Hsave (lit " Acme ")) as (s' & out & Hrun & H1 & H2 & _ & H3 & _);
    [vm_compute; reflexivity|].
  exists s', out. split; [exact Hrun|]. split; [exact H1|].
  split; [|exact H3]. apply H2. intros Heq. discriminate Heq.
Defined.

(** * More of the program *)

(** ** The runs as transitions *)

Lemma loaded_bank (s : SessionState) name questions :
  sections s !! name = Some questions → sections s ≠ ∅.
Proof. intros Hs He. rewrite He, lookup_empty in Hs. done. Qed.

Lemma edit_shown_response s section_name q_index :
  edit_shown s section_name q_index = true →
  is_Some (response_at s section_name q_index).
Proof.
  unfold edit_shown, response_at.
  destruct (sections s !! section_name); [|done].
  destruct (responses s !! section_name) as [of_section|]; [|done].
  rewrite andb_true_iff, !bool_decide_eq_true. simpl. by intros [_ ?].
Qed.

Lemma set_sections_same s : sections s = ∅ → set_sections ∅ s = s.
Proof. destruct s. simpl. by intros ->. Qed.

Section Transitions.

Variable json_loads : pystr -> option json.
Variable format_value : json -> pystr.

Local Abbreviation main := (main json_loads format_value).
Local Abbreviation reachable := (reachable json_loads format_value).

Lemma dispatch_transition w click s st' out :
  Live s →
  dispatch json_loads format_value w click (display_progress_sidebar s)
  = Some (st', out) →
  transition (now w) click s st'.
Proof.
  intros HL.
  pose proof (sidebar_size s (live_completed _ HL)) as Hsize.
  unfold dispatch.
  change (editing_mode (display_progress_sidebar s)) with (editing_mode s).
  change (current_section (display_progress_sidebar s)) with (current_section s).
  change (sections (display_progress_sidebar s)) with (sections s).
  change (followup_mode (display_progress_sidebar s)) with (followup_mode s).
  change (current_question_index (display_progress_sidebar s))
    with (current_question_index s).
  case_bool_decide as Hall.
  { apply Hsize in Hall. unfold display_summary.
    destruct click as [[]|]; simpl; try (intros [= <- <-]; by constructor).
    destruct (edit_shown _ _ _) eqn:Hshown; intros [= <- <-];
      [|by constructor].
    eapply t_edit; [done..|]. by apply edit_shown_response in Hshown. }
  assert (editing_mode s = false) as Hedit.
  { destruct (editing_mode s) eqn:He; [|done].
    destruct Hall. by apply Hsize, (live_editing _ HL). }
  rewrite Hedit, orb_false_r. cbn [negb].
  destruct (truthy (current_section s)) eqn:Hcs; cbn [negb].
  2:{ assert (followup_mode s = false) as Hmode.
      { destruct (followup_mode s) eqn:Hm; [|done].
        destruct (live_followup _ HL Hm) as [? _]. congruence. }
      unfold display_section_selection. case_bool_decide.
      - intros [= <- <-]. constructor.
      - destruct click as [[]|]; simpl; try (intros [= <- <-]; by constructor).
        case_bool_decide; [|intros [= <- <-]; by constructor].
        change (sections (display_progress_sidebar s)) with (sections s).
        destruct (sections s !! section_name) as [questions|] eqn:Hs; simpl;
          [|done].
        destruct (first_unanswered questions) as [i|] eqn:Hfirst.
        + apply first_unanswered_Some in Hfirst as (q & Hi & Hqi & Hbefore).
          intros [= <- <-]. by eapply t_start.
        + intros [= <- <-]. apply first_unanswered_None in Hfirst.
          exfalso. revert H0. rewrite elem_of_difference. intros [_ Hnot].
          apply Hnot. simpl. apply elem_of_union_r, elem_of_done_sections.
          eauto. }
  destruct (sections s !! current_section s) as [questions|] eqn:Hs; [|done].
  cbn [mbind option_bind].
  case_bool_decide as Hlen.
  { intros [= <- <-]. eapply t_complete; [done| |done..].
    destruct (followup_mode s) eqn:Hm; [|done].
    destruct (live_followup _ HL Hm) as [_ [q Hq]].
    unfold question_at in Hq. rewrite Hs in Hq. cbn [mbind option_bind] in Hq.
    apply lookup_lt_Some in Hq. lia. }
  destruct (questions !! current_question_index s) as [q|] eqn:Hq; [|done].
  cbn [mbind option_bind].
  destruct (followup_mode s) eqn:Hmode.
  - unfold display_followup_interface.
    change (current_followup_index (display_progress_sidebar s))
      with (current_followup_index s).
    change (followup_questions (display_progress_sidebar s))
      with (followup_questions s).
    change (followup_answers (display_progress_sidebar s))
      with (followup_answers s).
    change (original_answer (display_progress_sidebar s))
      with (original_answer s).
    case_bool_decide.
    + destruct (followup_questions s !! current_followup_index s) as [fq|]
        eqn:Hfq; [|done].
      cbn [mbind option_bind].
      destruct click as [[]|]; cbv beta iota;
        try (intros [= <- <-]; by constructor).
      * destruct (truthy (strip followup_answer)) eqn:Ha;
          intros [= <- <-]; [by eapply t_next | constructor].
      * rewrite (save_response_saved _ _ _ _ _ _ questions q) by done.
        cbn [mbind option_bind]. intros [= <- <-].
        eapply t_commit_reset; [by left | done..].
    + destruct click as [[]|]; cbv beta iota;
        try (intros [= <- <-]; by constructor).
      * rewrite (save_response_saved _ _ _ _ _ _ questions q) by done.
        cbn [mbind option_bind]. intros [= <- <-].
        eapply t_commit_reset; [by right | done..].
      * intros [= <- <-]. apply t_start_over; [done | done | lia].
  - unfold display_main_question_interface.
    destruct click as [[]|]; cbv beta iota;
      try (intros [= <- <-]; by constructor).
    + destruct (truthy (strip user_answer)); [|intros [= <- <-]; constructor].
      destruct (validate_response _ _ _ _ _) as [[[] fqs] o].
      * rewrite (save_response_saved _ _ _ _ _ _ questions q) by done.
        cbn [mbind option_bind]. intros [= <- <-].
        eapply t_commit; [right; by eexists | done..].
      * intros [= <- <-]. apply t_enter; [done..|].
        unfold question_at. rewrite Hs. cbn [mbind option_bind]. by eexists.
    + rewrite (save_response_saved _ _ _ _ _ _ questions q) by done.
      cbn [mbind option_bind]. intros [= <- <-].
      eapply t_commit; [by left | done..].
Qed.

(** A run of a reachable session leaves the state as it is (no API key, or
    no bank to load), or takes a transition from the state it found, or
    from the bank it has just loaded. *)
Lemma main_step w click st st' out :
  reachable st →
  fresh_bank (bpr_json w) →
  main w click st = Some (st', out) →
  st' = Keys (view st)
  ∨ ∃ s,
      Live s
      ∧ transition (now w) click s st'
      ∧ (s = view st
         ∨ (view st = view (Unset None)
            ∧ s = set_sections (bpr_json w) (view (Unset None)))).
Proof.
  intros Hr Hfresh. destruct (api_key w) eqn:Hkey.
  2:{ rewrite main_no_key by done. intros [= <- <-]. by left. }
  destruct (reachable_inv _ _ _ Hr) as [Heq|HL].
  - rewrite main_loading by (done || by rewrite Heq).
    case_bool_decide as Hb.
    + intros [= <- <-]. left. rewrite Hb, set_sections_same; [done|].
      by rewrite Heq.
    + intros Hrun. right. rewrite Heq in Hrun.
      exists (set_sections (bpr_json w) (view (Unset None))).
      pose proof (fresh_bank_live _ Hfresh Hb) as HL.
      split_and!; [done| |by right].
      by eapply dispatch_transition.
  - rewrite main_loaded by (done || apply (live_bank _ HL)).
    intros Hrun. right. exists (view st).
    split_and!; [done| |by left]. by eapply dispatch_transition.
Qed.

Lemma main_step_loaded w click st st' out :
  reachable st →
  sections (view st) ≠ ∅ →
  main w click st = Some (st', out) →
  Live (view st)
  ∧ (st' = Keys (view st) ∨ transition (now w) click (view st) st').
Proof.
  intros Hr Hne.
  pose proof (reachable_live _ _ _ Hr Hne) as HL. split; [done|].
  destruct (api_key w) eqn:Hkey.
  2:{ rewrite main_no_key in H by done. injection H as <- <-. by left. }
  rewrite main_loaded in H by done. right. by eapply dispatch_transition.
Qed.

(** Induction over the reachable states. *)
Lemma reachable_invariant (Q : SessionState → Prop) :
  Q (view (Unset None)) →
  (∀ bank, fresh_bank bank → bank ≠ ∅ →
     Q (set_sections bank (view (Unset None)))) →
  (∀ ts click s st', Live s → Q s → transition ts click s st' → Q (view st')) →
  ∀ st, reachable st → Q (view st).
Proof.
  intros Hnew Hbank Hstep st.
  induction 1 as [|st w click st' out Hr IH Hfresh Hrun]; [done|].
  destruct (main_step _ _ _ _ _ Hr Hfresh Hrun)
    as [->|(s & HL & Ht & [->|[Heq ->]])]; [done|by eauto|].
  eapply Hstep; [done| |done]. apply Hbank; [done|].
  apply (live_bank _ HL).
Qed.

Lemma reachable_paired st : reachable st → paired (view st).
Proof.
  apply reachable_invariant.
  - split_and!; [done | simpl; lia | by constructor].
  - intros. split_and!; [done | simpl; lia | by constructor].
  - intros ts click s st' HL (Hp & Hle & Hall) Ht. unfold paired in *.
    destruct Ht; unf; try (split_and!; [done | lia | done]).
    + split_and!.
      * rewrite fmap_app, Hp, Nat.add_1_r. simpl. by erewrite take_S_r.
      * apply lookup_lt_Some in H1. lia.
      * apply Forall_app. split; [done|]. by repeat constructor.
Qed.

Lemma reachable_in_bounds st : reachable st → in_bounds (view st).
Proof.
  apply reachable_invariant.
  - by intros ?.
  - by intros ? ? ? ?.
  - intros ts click s st' HL Hb Ht. unfold in_bounds in *.
    destruct Ht; unf; try done.
    + intros _. exists questions. split; [done|].
      apply lookup_lt_Some in H3. lia.
    + intros _. eexists. rewrite lookup_insert_eq. split; [done|].
      rewrite length_insert. apply lookup_lt_Some in H3. lia.
    + intros _. eexists. rewrite lookup_insert_eq. split; [done|].
      rewrite length_insert. apply lookup_lt_Some in H3. lia.
Qed.

(** In follow-up mode the run draws the follow-up screen of the current
    question. *)
Lemma main_in_followup w click st :
  reachable st →
  api_key w = true →
  followup_mode (view st) = true →
  Live (view st)
  ∧ ∃ questions q,
      sections (view st) !! current_section (view st) = Some questions
      ∧ questions !! current_question_index (view st) = Some q
      ∧ main w click st
        = display_followup_interface format_value (now w)
            (current_section (view st)) (current_question_index (view st))
            click (display_progress_sidebar (view st)).
Proof.
  intros Hr Hkey Hmode.
  destruct (reachable_inv _ _ _ Hr) as [Heq|HL].
  { rewrite Heq in Hmode. done. }
  split; [done|].
  destruct (live_followup _ HL Hmode) as [Hcs [q Hq]].
  destruct (main_on_question json_loads format_value w click st q)
    as [_ ->]; [done..|].
  apply question_at_Some in Hq as (questions & Hs & Hq).
  exists questions, q. by rewrite Hmode.
Qed.

End Transitions.

(** ** save_response *)

(** X1: when the question exists, [save_response] stores the response
    with the given answer, the follow-up list (the empty list when none is
    given) and the time of the run, sets the question's flag, and changes
    no other response, no other question and no other key. *)
Theorem save_response_round_trip ts section i a fd s q :
  question_at s section i = Some q →
  ∃ s',
    save_response ts section i a fd s = Some s'
    ∧ response_at s' section i
      = Some {| answer := a; followup := default [] fd; timestamp := ts |}
    ∧ question_at s' section i = Some (mark_answered q)
    ∧ (∀ section' i', (section', i') ≠ (section, i) →
         response_at s' section' i' = response_at s section' i'
         ∧ question_at s' section' i' = question_at s section' i')
    ∧ dom (sections s') = dom (sections s)
    ∧ current_section s' = current_section s
    ∧ current_question_index s' = current_question_index s
    ∧ completed_sections s' = completed_sections s
    ∧ followup_mode s' = followup_mode s
    ∧ followup_questions s' = followup_questions s
    ∧ followup_answers s' = followup_answers s
    ∧ current_followup_index s' = current_followup_index s
    ∧ original_answer s' = original_answer s
    ∧ editing_mode s' = editing_mode s
    ∧ editing_question s' = editing_question s.
Proof.
  intros Hq. apply question_at_Some in Hq as (questions & Hs & Hq).
  eexists. split; [by apply save_response_saved|].
  unfold response_at, question_at, saved. simpl.
  split_and!; try done.
  - rewrite lookup_saved_response. by rewrite decide_True.
  - rewrite (lookup_marked _ _ _ _ _ _ _ Hs Hq). by rewrite decide_True.
  - intros section' i' Hne.
    rewrite lookup_saved_response, (lookup_marked _ _ _ _ _ _ _ Hs Hq).
    rewrite !decide_False; [done|intros [-> ->]; done..].
  - by eapply dom_marked.
Qed.

Lemma save_response_round_trip_witness :
  ∃ s',
    save_response (lit "2024-05-01T10:00:00") Company 0 (lit "Acme") None
      (view at_question) = Some s'
    ∧ response_at s' Company 0
      = Some {| answer := lit "Acme"; followup := [];
                timestamp := lit "2024-05-01T10:00:00" |}
    ∧ question_at s' Company 0
      = Some (mark_answered (ask "What is the company name?"))
    ∧ response_at s' Company 1 = None
    ∧ question_at s' Company 1 = Some (ask "Which database do you use?")
    ∧ current_section s' = Company
    ∧ current_question_index s' = 0.
Proof.
  destruct (save_response_round_trip (lit "2024-05-01T10:00:00") Company 0
              (lit "Acme") None (view at_question)
              (ask "What is the company name?"))
    as (s' & Hsave & Hr & Hq & Hframe & _ & Hcs & Hci & _).
  { vm_compute. reflexivity. }
  destruct (Hframe Company 1) as [Hr1 Hq1].
  { intros Heq. discriminate Heq. }
  exists s'. split; [exact Hsave|]. split; [exact Hr|]. split; [exact Hq|].
  split; [rewrite Hr1; vm_compute; reflexivity|].
  split; [rewrite Hq1; vm_compute; reflexivity|].
  split; [rewrite Hcs; vm_compute; reflexivity|].
  rewrite Hci. vm_compute. reflexivity.
Defined.

(** X2: [save_response] raises (a [KeyError] for the section, an
    [IndexError] for the index) exactly when the bank has no question at
    that place. *)
Theorem save_response_raises_iff ts section i a fd s :
  save_response ts section i a fd s = None ↔ question_at s section i = None.
Proof.
  unfold save_response, question_at. simpl.
  destruct (sections s !! section) as [questions|]; simpl; [|done].
  destruct (questions !! i); simpl; done.
Qed.

(** ** validate_response *)

Lemma mem_char_lstrip_by p c s :
  p c = false → mem_char c (lstrip_by p s) = mem_char c s.
Proof.
  intros Hc. induction s as [|c' s IH]; [done|]. simpl.
  destruct (p c') eqn:Hc'; [|done]. rewrite IH. unfold mem_char. simpl.
  destruct (N.eqb_spec c c') as [->|]; [congruence | done].
Qed.

Lemma mem_char_rev c s : mem_char c (rev s) = mem_char c s.
Proof.
  unfold mem_char. induction s as [|c' s IH]; [done|]. simpl.
  rewrite existsb_app, IH. simpl. by rewrite orb_false_r, orb_comm.
Qed.

Lemma mem_char_strip_by p c s :
  p c = false → mem_char c (strip_by p s) = mem_char c s.
Proof.
  intros Hc. unfold strip_by, rstrip_by.
  by rewrite mem_char_rev, mem_char_lstrip_by, mem_char_rev,
    mem_char_lstrip_by.
Qed.

Lemma mem_char_truthy c s : mem_char c s = true → truthy s = true.
Proof. by destruct s. Qed.

(** The test [if question:] of line 108 never fails: the question mark of
    the line is not among the characters trimmed. *)
Lemma fallback_question_Some line v :
  fallback_question line = Some v
  ↔ mem_char question_mark (strip line) = true
    ∧ v = JString (strip_chars strip_set (strip line)).
Proof.
  unfold fallback_question. cbv zeta.
  assert (mem_char question_mark (strip_chars strip_set (strip line))
          = mem_char question_mark (strip line)) as Hkeep
    by (by apply mem_char_strip_by).
  destruct (mem_char question_mark (strip line)) eqn:Hmark.
  - rewrite (mem_char_truthy _ _ Hmark), (mem_char_truthy _ _ Hkeep). simpl.
    split; [by intros [= <-] | by intros [_ ->]].
  - rewrite andb_false_r. split; [done | by intros []].
Qed.

Lemma fallback_fold lines questions :
  fold_left
    (fun (questions : list json) (line : pystr) =>
       let line := strip line in
       if truthy line && mem_char question_mark line then
         let question := strip_chars strip_set line in
         if truthy question then questions ++ [JString question]
         else questions
       else questions)
    lines questions
  = questions ++ omap fallback_question lines.
Proof.
  revert questions.
  induction lines as [|line lines IH]; intros questions; simpl.
  { by rewrite app_nil_r. }
  rewrite IH. unfold fallback_question. cbv zeta.
  destruct (truthy (strip line) && mem_char question_mark (strip line));
    [|done].
  destruct (truthy (strip_chars strip_set (strip line))); [|done].
  by rewrite <- app_assoc.
Qed.

(** X3: the fallback of [validate_response] returns the first two of the
    lines after the first that hold a question mark, each trimmed of white
    space and then of the characters of [strip_set]; every question it
    returns is a string that still holds a question mark. *)
Theorem fallback_questions_shape response_text :
  fallback_questions response_text
  = take 2 (omap fallback_question (tail (split_lines response_text)))
  ∧ ∀ v, v ∈ fallback_questions response_text →
      ∃ line,
        line ∈ tail (split_lines response_text)
        ∧ mem_char question_mark (strip line) = true
        ∧ v = JString (strip_chars strip_set (strip line))
        ∧ mem_char question_mark (strip_chars strip_set (strip line)) = true.
Proof.
  assert (fallback_questions response_text
          = take 2 (omap fallback_question (tail (split_lines response_text))))
    as Heq.
  { unfold fallback_questions. cbv zeta. by rewrite fallback_fold. }
  split; [done|]. rewrite Heq. intros v Hv.
  apply elem_of_take in Hv as (i & Hv & _).
  apply list_elem_of_lookup_2, list_elem_of_omap in Hv as (line & Hline & Hv).
  apply fallback_question_Some in Hv as [Hmark ->].
  exists line. split_and!; [done..|].
  unfold strip_chars. by rewrite mem_char_strip_by.
Qed.

Lemma split_lines_one_line s : nl ∉ s → split_lines s = [s].
Proof.
  induction s as [|c s IH]; [done|]. intros Hnl.
  apply not_elem_of_cons in Hnl as [Hc Hs]. simpl.
  destruct (N.eqb_spec c nl) as [->|]; [done|]. by rewrite IH.
Qed.

Lemma marker_one_line : nl ∉ NEEDS_FOLLOWUP.
Proof.
  intros H. apply list_elem_of_In in H. vm_compute in H.
  intuition discriminate.
Qed.

(** X4: when the reply is one line made of the follow-up marker and text
    that is not JSON, the verdict is follow-up with no question at all: the
    fallback skips the first line, so questions written on the marker line
    are lost. *)
Theorem questions_on_marker_line_are_lost json_loads t rest question
    user_answer context :
  strip t = NEEDS_FOLLOWUP ++ rest →
  json_loads (strip rest) = None →
  nl ∉ rest →
  validate_response json_loads (Some (Text t)) question user_answer context
  = ((false, []), [Generate question user_answer context]).
Proof.
  intros Ht Hjson Hnl. unfold validate_response. cbv zeta. rewrite Ht.
  replace (startswith ADEQUATE (NEEDS_FOLLOWUP ++ rest)) with false
    by reflexivity.
  rewrite startswith_app, after_first_app. cbn [mbind option_bind].
  rewrite Hjson. unfold fallback_questions. cbv zeta.
  rewrite split_lines_one_line; [done|].
  rewrite not_elem_of_app. split; [apply marker_one_line | done].
Qed.

Lemma questions_on_marker_line_are_lost_witness :
  validate_response Decoder.json_loads (Some (Text on_marker_line))
    (lit "Which database do you use?") (lit "SQL") None
  = ((false, []),
     [Generate (lit "Which database do you use?") (lit "SQL") None]).
Proof.
  apply (questions_on_marker_line_are_lost Decoder.json_loads on_marker_line
           (lit " Which database? Which version?")).
  - vm_compute. reflexivity.
  - vm_compute. reflexivity.
  - intros H. apply list_elem_of_In in H. vm_compute in H.
    intuition discriminate.
Defined.

(** ** The calls of the model *)

Lemma validate_response_calls json_loads model question user_answer context :
  List.filter is_call
    (validate_response json_loads model question user_answer context).2
  = match model with
    | Some _ => [Generate question user_answer context]
    | None => []
    end.
Proof.
  unfold validate_response. destruct model as [[|t]|]; [done| |done].
  cbv zeta. destruct (startswith ADEQUATE (strip t)); [done|].
  destruct (startswith NEEDS_FOLLOWUP (strip t)); [|done].
  by destruct (_ ≫= _).
Qed.

Lemma dispatch_calls json_loads format_value w click s st' out :
  dispatch json_loads format_value w click s = Some (st', out) →
  List.filter is_call out = []
  ∨ ∃ user_answer q,
      click = Some (SubmitAnswer user_answer)
      ∧ truthy (strip user_answer) = true
      ∧ truthy (current_section s) = true
      ∧ followup_mode s = false
      ∧ question_at s (current_section s) (current_question_index s) = Some q
      ∧ List.filter is_call out
        = [Generate (q_question q) user_answer (q_context q)].
Proof.
  unfold dispatch. case_bool_decide.
  { unfold display_summary.
    destruct click as [[]|]; simpl; try (intros [= <- <-]; by left).
    destruct (edit_shown _ _ _); intros [= <- <-]; by left. }
  destruct (editing_mode s) eqn:Hedit.
  { rewrite orb_true_r. cbn [negb]. unfold display_editing_interface.
    destruct (editing_question s) as [[edit_section edit_q_index]|]; [|done].
    cbn [mbind option_bind].
    destruct (sections s !! edit_section) as [questions|]; [|done].
    cbn [mbind option_bind].
    destruct (questions !! edit_q_index); [|done].
    cbn [mbind option_bind].
    destruct (responses s !! edit_section) as [of_section|]; [|done].
    cbn [mbind option_bind].
    destruct (of_section !! edit_q_index); [|done].
    cbn [mbind option_bind].
    destruct click as [[]|]; try (intros [= <- <-]; by left).
    destruct (truthy (strip new_answer)); intros [= <- <-]; by left. }
  rewrite orb_false_r. cbn [negb].
  destruct (truthy (current_section s)) eqn:Hcs; cbn [negb].
  2:{ unfold display_section_selection. case_bool_decide.
      - intros [= <- <-]. by left.
      - destruct click as [[]|]; simpl; try (intros [= <- <-]; by left).
        case_bool_decide; [|intros [= <- <-]; by left].
        destruct (sections s !! section_name); simpl; [|done].
        intros [= <- <-]. by left. }
  destruct (sections s !! current_section s) as [questions|] eqn:Hs; [|done].
  cbn [mbind option_bind].
  case_bool_decide; [intros [= <- <-]; by left|].
  destruct (questions !! current_question_index s) as [q|] eqn:Hq; [|done].
  cbn [mbind option_bind].
  destruct (followup_mode s) eqn:Hmode.
  - unfold display_followup_interface. case_bool_decide.
    + destruct (followup_questions s !! current_followup_index s); [|done].
      cbn [mbind option_bind].
      destruct click as [[]|]; try (intros [= <- <-]; by left).
      * destruct (truthy (strip followup_answer)); intros [= <- <-]; by left.
      * destruct (save_response _ _ _ _ _ _); [|done].
        intros [= <- <-]. by left.
    + destruct click as [[]|]; try (intros [= <- <-]; by left).
      destruct (save_response _ _ _ _ _ _); [|done].
      intros [= <- <-]. by left.
  - unfold display_main_question_interface.
    destruct click as [[]|]; try (intros [= <- <-]; by left).
    + destruct (truthy (strip user_answer)) eqn:Ha;
        [|intros [= <- <-]; by left].
      pose proof (validate_response_calls json_loads (Some (reply w))
                    (q_question q) user_answer (q_context q)) as Hcalls.
      destruct (validate_response _ _ _ _ _) as [[[] fqs] o];
        cbn [snd] in Hcalls.
      * destruct (save_response _ _ _ _ _ _); [|done].
        cbn [mbind option_bind]. intros [= <- <-]. right.
        exists user_answer, q. split_and!; try done.
        { unfold question_at. by rewrite Hs. }
        rewrite List.filter_app, Hcalls. done.
      * intros [= <- <-]. right.
        exists user_answer, q. split_and!; try done.
        unfold question_at. by rewrite Hs.
    + destruct (save_response _ _ _ _ _ _); [|done].
      intros [= <- <-]. by left.
Qed.

Section Runs.

Variable json_loads : pystr -> option json.
Variable format_value : json -> pystr.

Local Abbreviation main := (main json_loads format_value).
Local Abbreviation reachable := (reachable json_loads format_value).
Local Abbreviation session := (session json_loads format_value).

(** X5: a run calls the model at most once, and only when Submit Answer is
    clicked with a non-blank answer on the screen of the current question
    outside follow-up mode; the prompt then carries that question, its
    context, and the answer as typed (not trimmed). *)
Theorem model_called_only_on_submit w click st st' out :
  reachable st →
  main w click st = Some (st', out) →
  List.filter is_call out = []
  ∨ ∃ user_answer q,
      click = Some (SubmitAnswer user_answer)
      ∧ truthy (strip user_answer) = true
      ∧ followup_mode (view st) = false
      ∧ question_at (view st) (current_section (view st))
          (current_question_index (view st)) = Some q
      ∧ List.filter is_call out
        = [Generate (q_question q) user_answer (q_context q)].
Proof.
  intros Hr. destruct (api_key w) eqn:Hkey.
  2:{ rewrite main_no_key by done. intros [= <- <-]. by left. }
  destruct (reachable_inv _ _ _ Hr) as [Heq|HL].
  - rewrite main_loading by (done || by rewrite Heq).
    case_bool_decide; [intros [= <- <-]; by left|].
    intros Hrun. apply dispatch_calls in Hrun as [?|Hrun]; [by left|].
    destruct Hrun as (? & ? & _ & _ & Hcs & _). rewrite Heq in Hcs. done.
  - rewrite main_loaded by (done || apply (live_bank _ HL)).
    intros Hrun. apply dispatch_calls in Hrun as [?|Hrun]; [by left|].
    right. destruct Hrun as (user_answer & q & ? & ? & ? & ? & ? & ?).
    by exists user_answer, q.
Qed.

(** X6: no run of a session raises, as long as every dict that
    [load_questions_from_json] returns during the session reads as a bank
    ([read_bank]: every section a list of question objects with a string
    under ['question']) and carries no answered flag: whatever the clicks
    and the replies of the model, every run returns.  A dict that does not
    read as a bank, such as one with a question without ['question'], is
    not covered: the program can raise on it. *)
Theorem no_run_raises runs :
  Forall (fun run =>
            ∃ sections,
              read_bank sections = Some (bpr_json run.1)
              ∧ fresh_bank (bpr_json run.1))
    runs →
  is_Some (session runs (Unset None)).
Proof.
  assert (∀ st, reachable st →
            Forall (fun run =>
                      ∃ sections,
                        read_bank sections = Some (bpr_json run.1)
                        ∧ fresh_bank (bpr_json run.1))
              runs →
            is_Some (session runs st)) as Hgen.
  { induction runs as [|[w click] runs IH]; intros st Hr Hfresh; simpl.
    { by eexists. }
    apply Forall_cons in Hfresh as [(_ & _ & Hw) Hrest].
    destruct (main_total _ _ w click st Hr Hw) as [[st' out] Hrun].
    rewrite Hrun. apply IH; [|done]. by eapply reach_run. }
  apply Hgen. constructor.
Qed.

End Runs.

Lemma model_called_only_on_submit_witness :
  ∃ st',
    main Decoder.json_loads plain_text (world Raises)
      (Some (SubmitAnswer (lit " SQL "))) at_question
    = Some (st', [Generate (lit "What is the company name?") (lit " SQL ") None;
                  Notice LError; Notice LSuccess])
    ∧ (List.filter is_call
         [Generate (lit "What is the company name?") (lit " SQL ") None;
          Notice LError; Notice LSuccess] = []
       ∨ ∃ user_answer q,
           Some (SubmitAnswer (lit " SQL ")) = Some (SubmitAnswer user_answer)
           ∧ truthy (strip user_answer) = true
           ∧ followup_mode (view at_question) = false
           ∧ question_at (view at_question)
               (current_section (view at_question))
               (current_question_index (view at_question)) = Some q
           ∧ List.filter is_call
               [Generate (lit "What is the company name?") (lit " SQL ") None;
                Notice LError; Notice LSuccess]
             = [Generate (q_question q) user_answer (q_context q)]).
Proof.
  eexists. split.
  - vm_compute. reflexivity.
  - eapply (model_called_only_on_submit Decoder.json_loads plain_text
              (world Raises) (Some (SubmitAnswer (lit " SQL "))) at_question).
    + exact at_question_reachable.
    + vm_compute. reflexivity.
Defined.

Example bank_json_read : read_bank bank_json = Some bank.
Proof. vm_compute. reflexivity. Qed.

Example bank_without_text_not_read : read_bank bank_without_text = None.
Proof. vm_compute. reflexivity. Qed.

Lemma no_run_raises_witness :
  is_Some (session Decoder.json_loads plain_text to_editing (Unset None)).
Proof.
  apply (no_run_raises Decoder.json_loads plain_text to_editing).
  apply (Forall_impl (fun run => bpr_json run.1 = bank)).
  - repeat constructor.
  - intros run ->. exists bank_json.
    split; [exact bank_json_read | exact bank_fresh].
Defined.

(** ** The follow-up screen *)

Section Followups.

Variable json_loads : pystr -> option json.
Variable format_value : json -> pystr.

Local Abbreviation main := (main json_loads format_value).
Local Abbreviation reachable := (reachable json_loads format_value).

(** X7: in every reachable state there are as many collected follow-up
    answers as the follow-up index says, the index does not pass the number
    of follow-up questions, the answer at each position is paired with the
    follow-up question at that position, and no collected answer is
    empty. *)
Theorem followup_answers_follow_questions st :
  reachable st →
  length (followup_answers (view st)) = current_followup_index (view st)
  ∧ current_followup_index (view st) ≤ length (followup_questions (view st))
  ∧ ∀ i fa,
      followup_answers (view st) !! i = Some fa →
      followup_questions (view st) !! i = Some (fa_question fa)
      ∧ truthy (fa_answer fa) = true.
Proof.
  intros Hr. destruct (reachable_paired _ _ _ Hr) as (Hp & Hle & Hall).
  split_and!; [|done|].
  - rewrite <- (length_fmap fa_question), Hp, length_take. lia.
  - intros i fa Hfa. split.
    + assert ((fa_question <$> followup_answers (view st)) !! i
              = Some (fa_question fa)) as Hi
        by (by rewrite list_lookup_fmap, Hfa).
      rewrite Hp in Hi. by apply lookup_take_Some in Hi as [? _].
    + by eapply (Forall_lookup_1 _ _ i fa) in Hall.
Qed.

(** X8: Next with a non-blank answer appends the trimmed answer, paired
    with the follow-up question asked, and moves to the next follow-up
    question; with a blank answer it warns and changes nothing.  Either way
    no response is stored and the current question stays. *)
Theorem next_collects_answer w st followup_answer :
  reachable st →
  api_key w = true →
  followup_mode (view st) = true →
  current_followup_index (view st) < length (followup_questions (view st)) →
  ∃ current_followup s' out,
    followup_questions (view st) !! current_followup_index (view st)
    = Some current_followup
    ∧ main w (Some (Next followup_answer)) st = Some (Keys s', out)
    ∧ responses s' = responses (view st)
    ∧ sections s' = sections (view st)
    ∧ current_section s' = current_section (view st)
    ∧ current_question_index s' = current_question_index (view st)
    ∧ followup_mode s' = true
    ∧ followup_questions s' = followup_questions (view st)
    ∧ original_answer s' = original_answer (view st)
    ∧ if truthy (strip followup_answer) then
        followup_answers s'
        = followup_answers (view st)
          ++ [{| fa_question := current_followup;
                 fa_answer := strip followup_answer |}]
        ∧ current_followup_index s' = current_followup_index (view st) + 1
        ∧ out = [Ask current_followup]
      else
        followup_answers s' = followup_answers (view st)
        ∧ current_followup_index s' = current_followup_index (view st)
        ∧ out = [Ask current_followup; Notice LWarning].
Proof.
  intros Hr Hkey Hmode Hlt.
  destruct (main_in_followup json_loads format_value w
              (Some (Next followup_answer)) st Hr Hkey Hmode)
    as (HL & questions & q & Hs & Hq & ->).
  destruct (lookup_lt_is_Some_2 _ _ Hlt) as [fq Hfq]. exists fq.
  unfold display_followup_interface.
  change (current_followup_index (display_progress_sidebar (view st)))
    with (current_followup_index (view st)).
  change (followup_questions (display_progress_sidebar (view st)))
    with (followup_questions (view st)).
  rewrite bool_decide_eq_true_2 by done. rewrite Hfq.
  cbn [mbind option_bind].
  destruct (truthy (strip followup_answer)); do 2 eexists;
    (split; [done|]); (split; [reflexivity|]); simpl; by rewrite ?Hmode.
Qed.

(** X9: Use Original Answer, offered while a follow-up question is asked,
    stores the original answer alone: the response has no follow-up list,
    so the follow-up answers collected so far are dropped; the question is
    flagged, the follow-up keys are cleared and the index advances. *)
Theorem use_original_drops_followups w st :
  reachable st →
  api_key w = true →
  followup_mode (view st) = true →
  current_followup_index (view st) < length (followup_questions (view st)) →
  ∃ s' out,
    main w (Some UseOriginal) st = Some (Keys s', out)
    ∧ response_at s' (current_section (view st))
        (current_question_index (view st))
      = Some {| answer := original_answer (view st); followup := [];
                timestamp := now w |}
    ∧ (∃ q, question_at s' (current_section (view st))
              (current_question_index (view st)) = Some q
            ∧ q_answered q = true)
    ∧ current_section s' = current_section (view st)
    ∧ current_question_index s' = current_question_index (view st) + 1
    ∧ followup_mode s' = false
    ∧ followup_cleared s'.
Proof.
  intros Hr Hkey Hmode Hlt.
  destruct (main_in_followup json_loads format_value w (Some UseOriginal) st
              Hr Hkey Hmode)
    as (HL & questions & q & Hs & Hq & ->).
  destruct (lookup_lt_is_Some_2 _ _ Hlt) as [fq Hfq].
  unfold display_followup_interface.
  change (current_followup_index (display_progress_sidebar (view st)))
    with (current_followup_index (view st)).
  change (followup_questions (display_progress_sidebar (view st)))
    with (followup_questions (view st)).
  rewrite bool_decide_eq_true_2 by done. rewrite Hfq.
  cbn [mbind option_bind].
  rewrite (save_response_saved _ _ _ _ _ _ questions q) by done.
  cbn [mbind option_bind]. do 2 eexists. split; [reflexivity|].
  unfold response_at, question_at, saved, followup_cleared. simpl.
  rewrite lookup_saved_response, (lookup_marked _ _ _ _ _ _ _ Hs Hq).
  rewrite !decide_True by done. split_and!; try done. by eexists.
Qed.

(** X10: Accept Final Answer, offered once every follow-up question has
    been answered, stores the combined answer together with the collected
    follow-up answers, and these answer exactly the follow-up questions of
    the model, all of them and in order; the question is flagged, the
    follow-up keys are cleared and the index advances. *)
Theorem accept_final_stores_all_followups w st :
  reachable st →
  api_key w = true →
  followup_mode (view st) = true →
  length (followup_questions (view st)) ≤ current_followup_index (view st) →
  ∃ s' out,
    main w (Some AcceptFinal) st = Some (Keys s', out)
    ∧ response_at s' (current_section (view st))
        (current_question_index (view st))
      = Some {| answer :=
                  combined_answer format_value (original_answer (view st))
                    (followup_answers (view st));
                followup := followup_answers (view st);
                timestamp := now w |}
    ∧ fa_question <$> followup_answers (view st) = followup_questions (view st)
    ∧ (∃ q, question_at s' (current_section (view st))
              (current_question_index (view st)) = Some q
            ∧ q_answered q = true)
    ∧ current_section s' = current_section (view st)
    ∧ current_question_index s' = current_question_index (view st) + 1
    ∧ followup_mode s' = false
    ∧ followup_cleared s'.
Proof.
  intros Hr Hkey Hmode Hle.
  destruct (main_in_followup json_loads format_value w (Some AcceptFinal) st
              Hr Hkey Hmode)
    as (HL & questions & q & Hs & Hq & ->).
  destruct (reachable_paired _ _ _ Hr) as (Hp & _ & _).
  unfold display_followup_interface.
  change (current_followup_index (display_progress_sidebar (view st)))
    with (current_followup_index (view st)).
  change (followup_questions (display_progress_sidebar (view st)))
    with (followup_questions (view st)).
  rewrite bool_decide_eq_false_2 by lia.
  rewrite (save_response_saved _ _ _ _ _ _ questions q) by done.
  cbn [mbind option_bind]. do 2 eexists. split; [reflexivity|].
  unfold response_at, question_at, saved, followup_cleared. simpl.
  rewrite lookup_saved_response, (lookup_marked _ _ _ _ _ _ _ Hs Hq).
  rewrite !decide_True by done. split_and!; try done.
  - rewrite Hp. by apply take_ge.
  - by eexists.
Qed.

(** X11: Skip stores the literal answer Skipped without calling the model,
    flags the question and advances the index: a skipped question is
    recorded like an answered one. *)
Theorem skip_stores_skipped w st q :
  reachable st →
  api_key w = true →
  truthy (current_section (view st)) = true →
  question_at (view st) (current_section (view st))
    (current_question_index (view st)) = Some q →
  followup_mode (view st) = false →
  ∃ s',
    main w (Some Skip) st = Some (Keys s', [])
    ∧ response_at s' (current_section (view st))
        (current_question_index (view st))
      = Some {| answer := Skipped; followup := []; timestamp := now w |}
    ∧ question_at s' (current_section (view st))
        (current_question_index (view st)) = Some (mark_answered q)
    ∧ current_section s' = current_section (view st)
    ∧ current_question_index s' = current_question_index (view st) + 1
    ∧ followup_mode s' = false.
Proof.
  intros Hr Hkey Hcs Hq Hmode.
  destruct (main_on_question json_loads format_value w (Some Skip) st q)
    as [HL ->]; [done..|].
  rewrite Hmode. unfold display_main_question_interface.
  apply question_at_Some in Hq as (questions & Hs & Hq).
  rewrite (save_response_saved _ _ _ _ _ _ questions q) by done.
  cbn [mbind option_bind]. eexists. split; [reflexivity|].
  unfold response_at, question_at, saved. simpl.
  rewrite lookup_saved_response, (lookup_marked _ _ _ _ _ _ _ Hs Hq).
  rewrite !decide_True by done. by rewrite Hmode.
Qed.

End Followups.

(** ** What the runs keep *)

Lemma open_question_no_response s q :
  Live s →
  truthy (current_section s) = true →
  question_at s (current_section s) (current_question_index s) = Some q →
  response_at s (current_section s) (current_question_index s) = None.
Proof.
  intros HL Hcs Hq.
  destruct (open_question s q HL Hcs Hq) as (Hflag & _ & _ & Hagree).
  destruct (response_at s _ _) eqn:Hr; [|done].
  destruct (proj1 (Hagree _ _) (mk_is_Some _ _ Hr)) as (q' & Hq' & Hflag').
  congruence.
Qed.

Lemma transition_bank ts click s st' name i :
  transition ts click s st' →
  question_at (view st') name i = question_at s name i
  ∨ question_at (view st') name i = mark_answered <$> question_at s name i.
Proof.
  destruct 1; unfold question_at, reset_followup_state, saved; simpl;
    try (by left).
  - rewrite (lookup_marked _ _ _ _ _ _ _ H2 H3). case_decide as Hd; [|by left].
    destruct Hd as [-> ->]. right. by rewrite H2; simpl; rewrite H3.
  - rewrite (lookup_marked _ _ _ _ _ _ _ H2 H3). case_decide as Hd; [|by left].
    destruct Hd as [-> ->]. right. by rewrite H2; simpl; rewrite H3.
Qed.

Lemma transition_dom ts click s st' :
  transition ts click s st' →
  dom (sections (view st')) = dom (sections s).
Proof.
  destruct 1; unfold reset_followup_state, saved; simpl; try done.
  - by eapply dom_marked.
  - by eapply dom_marked.
Qed.

Lemma transition_responses ts click s st' section i r :
  Live s →
  transition ts click s st' →
  response_at s section i = Some r →
  response_at (view st') section i = Some r
  ∨ (click = Some StartNew ∧ st' = Unset (Some (sections s))).
Proof.
  intros HL Ht Hr.
  destruct Ht; try (left; exact Hr); try (by right).
  - left. unfold response_at, reset_followup_state, saved. simpl.
    rewrite lookup_saved_response. case_decide as Hd; [|exact Hr].
    destruct Hd as [-> ->].
    rewrite (open_question_no_response s q) in Hr; [done..|].
    unfold question_at. by rewrite H2; simpl.
  - left. unfold response_at, reset_followup_state, saved. simpl.
    rewrite lookup_saved_response. case_decide as Hd; [|exact Hr].
    destruct Hd as [-> ->].
    rewrite (open_question_no_response s q) in Hr; [done..|].
    unfold question_at. by rewrite H2; simpl.
Qed.

Section Frames.

Variable json_loads : pystr -> option json.
Variable format_value : json -> pystr.

Local Abbreviation main := (main json_loads format_value).
Local Abbreviation reachable := (reachable json_loads format_value).

(** X12: once a bank is loaded, a run never reloads it and never adds,
    removes or rewrites a question: the sections keep their names, and each
    question is left as it was or gets its answered flag set.  No run,
    Start New Questionnaire included, clears a flag. *)
Theorem runs_only_set_flags w click st st' out :
  reachable st →
  sections (view st) ≠ ∅ →
  main w click st = Some (st', out) →
  dom (sections (view st')) = dom (sections (view st))
  ∧ ∀ name i,
      question_at (view st') name i = question_at (view st) name i
      ∨ question_at (view st') name i
        = mark_answered <$> question_at (view st) name i.
Proof.
  intros Hr Hne Hrun.
  destruct (main_step_loaded _ _ _ _ _ _ _ Hr Hne Hrun) as [HL [->|Ht]].
  { split; [done | by left]. }
  split; [by eapply transition_dom | intros; by eapply transition_bank].
Qed.

(** X13: a stored response is never changed by a later run: it is still
    there, with the same answer, follow-up list and time, unless the run is
    a click on Start New Questionnaire, which deletes every response. *)
Theorem responses_are_write_once w click st st' out section i r :
  reachable st →
  main w click st = Some (st', out) →
  response_at (view st) section i = Some r →
  response_at (view st') section i = Some r
  ∨ (click = Some StartNew ∧ st' = Unset (Some (sections (view st)))).
Proof.
  intros Hr Hrun Hresp.
  assert (sections (view st) ≠ ∅) as Hne.
  { destruct (reachable_inv _ _ _ Hr) as [Heq|HL]; [|apply (live_bank _ HL)].
    rewrite Heq in Hresp. done. }
  destruct (main_step_loaded _ _ _ _ _ _ _ Hr Hne Hrun) as [HL [->|Ht]].
  { by left. }
  by eapply transition_responses.
Qed.

(** X14: once every section is done, every run with an API key shows the
    summary, whatever is clicked, and leaves the bank as it is, so that the
    next run shows the summary again: neither Edit nor Start New
    Questionnaire leads anywhere else. *)
Theorem summary_is_final w click st :
  reachable st →
  api_key w = true →
  sections (view st) ≠ ∅ →
  done_sections (sections (view st)) = dom (sections (view st)) →
  main w click st
  = display_summary (now w) click (display_progress_sidebar (view st))
  ∧ ∃ st' out,
      main w click st = Some (st', out)
      ∧ Notice LSuccess ∈ out
      ∧ sections (view st') = sections (view st)
      ∧ (click ≠ Some StartNew → responses (view st') = responses (view st)).
Proof.
  intros Hr Hkey Hne Hdone.
  pose proof (reachable_live _ _ _ Hr Hne) as HL.
  rewrite main_loaded by done. unfold dispatch.
  rewrite bool_decide_eq_true_2
    by (by apply (proj2 (sidebar_size _ (live_completed _ HL)))).
  split; [done|]. unfold display_summary.
  destruct click as [[]|]; simpl;
    try (do 2 eexists; split; [reflexivity|]; split_and!;
         [apply list_elem_of_here|done..]).
  destruct (edit_shown _ _ _); do 2 eexists; (split; [reflexivity|]);
    split_and!; (apply list_elem_of_here || done).
Qed.

(** X15: the editing screen is never drawn.  With [editing_mode] set, the
    run shows the summary, and unless Start New Questionnaire is clicked it
    leaves [editing_mode] set and every response as it was. *)
Theorem edit_leads_back_to_summary w click st :
  reachable st →
  api_key w = true →
  editing_mode (view st) = true →
  main w click st
  = display_summary (now w) click (display_progress_sidebar (view st))
  ∧ (click ≠ Some StartNew →
     ∃ s' out,
       main w click st = Some (Keys s', out)
       ∧ editing_mode s' = true
       ∧ responses s' = responses (view st)).
Proof.
  intros Hr Hkey Hedit.
  destruct (reachable_inv _ _ _ Hr) as [Heq|HL].
  { rewrite Heq in Hedit. done. }
  rewrite main_loaded by (done || apply (live_bank _ HL)). unfold dispatch.
  rewrite bool_decide_eq_true_2
    by (by apply (summary_preempts_editing json_loads format_value)).
  split; [done|]. intros Hclick. unfold display_summary.
  destruct click as [[]|]; simpl; try done;
    try (do 2 eexists; split; [reflexivity|]; simpl;
         split; [exact Hedit | reflexivity]).
  destruct (edit_shown _ _ _); do 2 eexists; (split; [reflexivity|]); simpl;
    (split; [done | reflexivity]).
Qed.

End Frames.

(** ** The summary's report *)

Lemma done_all_answered (secs : gmap pystr (list Question)) name questions i q :
  done_sections secs = dom secs →
  secs !! name = Some questions →
  questions !! i = Some q →
  q_answered q = true.
Proof.
  intros Hdone Hs Hq.
  assert (name ∈ done_sections secs) as Hin
    by (rewrite Hdone; by apply elem_of_dom).
  apply elem_of_done_sections in Hin as (questions' & Hs' & Hall).
  assert (questions' = questions) as -> by congruence.
  by eapply section_done_lookup.
Qed.

Section Summary.

Variable json_loads : pystr -> option json.
Variable format_value : json -> pystr.

Local Abbreviation main := (main json_loads format_value).
Local Abbreviation reachable := (reachable json_loads format_value).

(** X16: on the summary, every entry of the report carries a stored
    response: the entry without one, with the answer Not answered, is never
    produced; and as long as at least one response is stored, the report
    has an entry for every question of every section.  The report's total
    is the number of questions of the bank. *)
Theorem report_entries_are_responses w st :
  reachable st →
  api_key w = true →
  sections (view st) ≠ ∅ →
  done_sections (sections (view st)) = dom (sections (view st)) →
  ∃ st' r,
    main w None st = Some (st', [Notice LSuccess; Download r])
    ∧ total_questions r = count_questions (sections (view st))
    ∧ (∀ name entries i e,
         questionnaire_responses r !! name = Some entries →
         entries !! i = Some e →
         ∃ q resp,
           question_at (view st) name i = Some q
           ∧ response_at (view st) name i = Some resp
           ∧ e = response_data name q (Some resp))
    ∧ (responses (view st) ≠ ∅ →
       ∀ name questions,
         sections (view st) !! name = Some questions →
         ∃ entries,
           questionnaire_responses r !! name = Some entries
           ∧ length entries = length questions).
Proof.
  intros Hr Hkey Hne Hdone.
  pose proof (reachable_live _ _ _ Hr Hne) as HL.
  rewrite main_loaded by done. unfold dispatch.
  rewrite bool_decide_eq_true_2
    by (by apply (proj2 (sidebar_size _ (live_completed _ HL)))).
  unfold display_summary. do 2 eexists. split; [reflexivity|].
  assert (responses (view st) ≠ ∅ → flags_agree (view st)) as Hagree.
  { intros Hsome. by destruct (live_flags _ HL) as [?|[? _]]. }
  simpl. split; [done|]. split.
  - intros name entries i e. rewrite map_lookup_imap.
    destruct (sections (view st) !! name) as [questions|] eqn:Hs; [|done].
    simpl. intros [= <-]. unfold section_responses.
    destruct (responses (view st) !! name) as [of_section|] eqn:Hof; [|done].
    rewrite list_lookup_imap.
    destruct (questions !! i) as [q|] eqn:Hq; [|done]. simpl. intros [= <-].
    assert (responses (view st) ≠ ∅) as Hsome.
    { intros Hempty. rewrite Hempty, lookup_empty in Hof. done. }
    pose proof (done_all_answered _ _ _ _ _ Hdone Hs Hq) as Hflag.
    destruct (proj2 (Hagree Hsome name i)) as [resp Hresp].
    { exists q. split; [|done]. unfold question_at. by rewrite Hs. }
    exists q, resp. split_and!; [|done|].
    + unfold question_at. by rewrite Hs.
    + unfold response_at in Hresp. rewrite Hof in Hresp. simpl in Hresp.
      by rewrite Hresp.
  - intros Hsome name questions Hs. rewrite map_lookup_imap, Hs. simpl.
    eexists. split; [reflexivity|]. unfold section_responses.
    destruct (responses (view st) !! name) as [of_section|] eqn:Hof.
    { by rewrite length_imap. }
    destruct questions as [|q questions]; [done|]. exfalso.
    destruct (proj2 (Hagree Hsome name 0)) as [resp Hresp].
    { exists q. split; [unfold question_at; by rewrite Hs|].
      by eapply (done_all_answered _ name (q :: questions) 0). }
    unfold response_at in Hresp. rewrite Hof in Hresp. done.
Qed.

End Summary.

(** ** The progress shown *)

Lemma answered_prefix (questions : list Question) k :
  (∀ j q, questions !! j = Some q → (q_answered q = true ↔ j < k)) →
  section_answered questions = k `min` length questions.
Proof.
  unfold section_answered. revert k.
  induction questions as [|q questions IH]; intros k Hk; simpl.
  { lia. }
  pose proof (Hk 0 q eq_refl) as H0.
  destruct k as [|k].
  - destruct (q_answered q).
    { destruct H0 as [H0 _]. specialize (H0 eq_refl). lia. }
    rewrite (IH 0); [done|]. intros j y Hy.
    rewrite (Hk (S j) y Hy). lia.
  - assert (q_answered q = true) as -> by (apply H0; lia). simpl.
    rewrite (IH k); [done|]. intros j y Hy.
    rewrite (Hk (S j) y Hy). lia.
Qed.

Section Progress.

Variable json_loads : pystr -> option json.
Variable format_value : json -> pystr.

Local Abbreviation main := (main json_loads format_value).
Local Abbreviation reachable := (reachable json_loads format_value).

(** X17: in every reachable state the answered questions of a section are
    its first ones: a question is flagged exactly when its position is
    below the count of answered questions the sidebar shows.  In the
    current section the question index is that count, and it does not pass
    the end of the section. *)
Theorem question_index_counts_answers st name questions :
  reachable st →
  sections (view st) !! name = Some questions →
  (∀ j q, questions !! j = Some q →
          (q_answered q = true ↔ j < section_answered questions))
  ∧ (truthy (current_section (view st)) = true →
     name = current_section (view st) →
     current_question_index (view st) = section_answered questions
     ∧ current_question_index (view st) ≤ length questions).
Proof.
  intros Hr Hs.
  assert (Live (view st)) as HL.
  { apply (reachable_live _ _ _ Hr). intros He.
    rewrite He, lookup_empty in Hs. done. }
  split.
  - destruct (live_prefix _ HL name) as [k Hk].
    assert (∀ j q, questions !! j = Some q → (q_answered q = true ↔ j < k))
      as Hk'.
    { intros j q Hq. apply Hk. unfold question_at. by rewrite Hs. }
    rewrite (answered_prefix _ _ Hk'). intros j q Hq.
    rewrite (Hk' j q Hq). apply lookup_lt_Some in Hq. lia.
  - intros Hcs ->.
    destruct (reachable_in_bounds _ _ _ Hr Hcs) as (questions' & Hs' & Hle).
    assert (questions' = questions) as -> by congruence.
    split; [|done].
    rewrite (answered_prefix _ (current_question_index (view st))); [lia|].
    intros j q Hq. apply (live_cursor _ HL Hcs).
    unfold question_at. by rewrite Hs.
Qed.

(** X18: the section list offers exactly the sections that still have an
    unanswered question, and when it is drawn there is at least one: the
    message All sections completed of [display_section_selection] is never
    shown. *)
Theorem selection_lists_unfinished_sections w click st :
  reachable st →
  api_key w = true →
  sections (view st) ≠ ∅ →
  done_sections (sections (view st)) ≠ dom (sections (view st)) →
  truthy (current_section (view st)) = false →
  main w click st
  = display_section_selection click (display_progress_sidebar (view st))
  ∧ (∀ name,
       name ∈ dom (sections (view st))
              ∖ completed_sections (display_progress_sidebar (view st))
       ↔ ∃ questions,
           sections (view st) !! name = Some questions
           ∧ ¬ section_done questions)
  ∧ dom (sections (view st))
    ∖ completed_sections (display_progress_sidebar (view st)) ≠ ∅.
Proof.
  intros Hr Hkey Hne Hdone Hcs.
  pose proof (reachable_live _ _ _ Hr Hne) as HL.
  pose proof (live_completed _ HL) as Hsub.
  assert (∀ name,
            name ∈ dom (sections (view st))
                   ∖ completed_sections (display_progress_sidebar (view st))
            ↔ ∃ questions,
                sections (view st) !! name = Some questions
                ∧ ¬ section_done questions) as Hlisted.
  { intros name. unfold display_progress_sidebar. simpl.
    rewrite elem_of_difference, elem_of_union, elem_of_dom.
    rewrite elem_of_done_sections. split.
    - intros [[questions Hs] Hnot]. exists questions. split; [done|].
      intros Hd. apply Hnot. right. by exists questions.
    - intros (questions & Hs & Hnot). split; [by eexists|].
      intros [Hin|(questions' & Hs' & Hd)].
      + apply Hsub, elem_of_done_sections in Hin as (questions' & Hs' & Hd).
        congruence.
      + congruence. }
  split_and!; [|done|].
  - rewrite main_loaded by done. unfold dispatch.
    rewrite bool_decide_eq_false_2
      by (by rewrite (sidebar_size _ Hsub)).
    change (current_section (display_progress_sidebar (view st)))
      with (current_section (view st)).
    rewrite Hcs. cbn [negb orb].
    destruct (editing_mode (display_progress_sidebar (view st))) eqn:Hedit;
      [|done].
    destruct Hdone. by apply (live_editing _ HL).
  - intros Hempty. apply Hdone. apply set_eq. intros name. split.
    { apply done_sections_dom. }
    intros Hdom. apply elem_of_dom in Hdom as [questions Hs].
    apply elem_of_done_sections. exists questions. split; [done|].
    destruct (decide (section_done questions)) as [|Hnot]; [done|].
    assert (name ∈ dom (sections (view st))
                   ∖ completed_sections (display_progress_sidebar (view st)))
      as Hin by (apply Hlisted; eauto).
    rewrite Hempty in Hin. by apply not_elem_of_empty in Hin.
Qed.

End Progress.

(** X19: the overall count of the sidebar: the total is the number of
    questions of the bank (the number the summary shows), the answered
    count never exceeds it, so that the progress bar gets a value between 0
    and 1, and the two are equal exactly when every section is done. *)
Theorem sidebar_totals_bounds (secs : gmap pystr (list Question)) :
  (sidebar_totals secs).1 = count_questions secs
  ∧ (sidebar_totals secs).2 ≤ (sidebar_totals secs).1
  ∧ ((sidebar_totals secs).2 = (sidebar_totals secs).1
     ↔ done_sections secs = dom secs).
Proof.
  assert (done_sections secs = dom secs
          ↔ map_Forall (fun _ questions => section_done questions) secs)
    as ->.
  { split.
    - intros Hdone name questions Hs.
      assert (name ∈ done_sections secs) as Hin
        by (rewrite Hdone; by apply elem_of_dom).
      apply elem_of_done_sections in Hin as (questions' & Hs' & Hd).
      congruence.
    - intros Hall. apply set_eq. intros name. split.
      { apply done_sections_dom. }
      intros Hdom. apply elem_of_dom in Hdom as [questions Hs].
      apply elem_of_done_sections. exists questions. split; [done|].
      by apply (Hall name). }
  unfold sidebar_totals, count_questions.
  induction secs as [|name questions secs Hfresh IH] using map_ind.
  { rewrite !map_fold_empty. simpl. split_and!; [done..|].
    split; [intros _; apply map_Forall_empty | done]. }
  rewrite !map_fold_insert_L; [|intros; lia|done|intros; simpl; f_equal; lia|done].
  destruct IH as (IH1 & IH2 & IH3). simpl.
  pose proof (section_answered_le questions) as Hle.
  rewrite map_Forall_insert by done. unfold section_done at 1.
  split_and!; [lia..|]. rewrite <- IH3. lia.
Qed.

(** ** The question screen and the end of a section *)

Section Questions.

Variable json_loads : pystr -> option json.
Variable format_value : json -> pystr.

Local Abbreviation main := (main json_loads format_value).
Local Abbreviation reachable := (reachable json_loads format_value).
Local Abbreviation validate_response := (validate_response json_loads).

(** X20: Submit Answer follows the verdict of [validate_response].  A
    blank answer is refused with a warning and nothing changes.  Otherwise,
    on an adequate verdict the trimmed answer is stored without follow-ups
    and the index advances; on a follow-up verdict nothing is stored, the
    index stays, and follow-up mode starts with the questions of the
    verdict and the trimmed answer as the original answer. *)
Theorem submit_follows_verdict w st q user_answer :
  reachable st →
  api_key w = true →
  truthy (current_section (view st)) = true →
  question_at (view st) (current_section (view st))
    (current_question_index (view st)) = Some q →
  followup_mode (view st) = false →
  ∃ s' out,
    main w (Some (SubmitAnswer user_answer)) st = Some (Keys s', out)
    ∧ current_section s' = current_section (view st)
    ∧ if truthy (strip user_answer) then
        let verdict :=
          (validate_response (Some (reply w)) (q_question q) user_answer
             (q_context q)).1 in
        if verdict.1 then
          response_at s' (current_section (view st))
            (current_question_index (view st))
          = Some {| answer := strip user_answer; followup := [];
                    timestamp := now w |}
          ∧ current_question_index s' = current_question_index (view st) + 1
          ∧ followup_mode s' = false
        else
          responses s' = responses (view st)
          ∧ current_question_index s' = current_question_index (view st)
          ∧ followup_mode s' = true
          ∧ followup_questions s' = verdict.2
          ∧ followup_answers s' = []
          ∧ current_followup_index s' = 0
          ∧ original_answer s' = strip user_answer
      else
        out = [Notice LWarning]
        ∧ responses s' = responses (view st)
        ∧ sections s' = sections (view st)
        ∧ current_question_index s' = current_question_index (view st)
        ∧ followup_mode s' = false.
Proof.
  intros Hr Hkey Hcs Hq Hmode.
  destruct (main_on_question json_loads format_value w
              (Some (SubmitAnswer user_answer)) st q)
    as [HL ->]; [done..|].
  rewrite Hmode. unfold display_main_question_interface.
  destruct (truthy (strip user_answer)).
  2:{ do 2 eexists. split; [reflexivity|]. simpl. by rewrite Hmode. }
  cbv zeta.
  destruct (validate_response _ _ _ _) as [[[] fqs] out]; cbn [fst snd].
  - apply question_at_Some in Hq as (questions & Hs & Hq).
    rewrite (save_response_saved _ _ _ _ _ _ questions q) by done.
    cbn [mbind option_bind]. do 2 eexists. split; [reflexivity|].
    unfold response_at, saved. simpl.
    rewrite lookup_saved_response, decide_True by done.
    by rewrite Hmode.
  - do 2 eexists. split; [reflexivity|]. simpl. done.
Qed.

(** X21: when the question index has reached the end of the current
    section while another section is unfinished, the run announces the end
    of the section and leaves it, whatever is clicked: the current section
    is cleared and the index set to 0, and no response and no question
    changes. *)
Theorem finished_section_is_left w click st questions :
  reachable st →
  api_key w = true →
  truthy (current_section (view st)) = true →
  sections (view st) !! current_section (view st) = Some questions →
  length questions ≤ current_question_index (view st) →
  done_sections (sections (view st)) ≠ dom (sections (view st)) →
  ∃ s',
    main w click st = Some (Keys s', [Notice LSuccess])
    ∧ current_section s' = []
    ∧ current_question_index s' = 0
    ∧ followup_mode s' = false
    ∧ followup_cleared s'
    ∧ current_section (view st) ∈ completed_sections s'
    ∧ responses s' = responses (view st)
    ∧ sections s' = sections (view st).
Proof.
  intros Hr Hkey Hcs Hs Hlen Hdone.
  pose proof (reachable_live _ _ _ Hr (loaded_bank _ _ _ Hs)) as HL.
  rewrite main_loaded by (done || apply (live_bank _ HL)). unfold dispatch.
  rewrite bool_decide_eq_false_2
    by (by rewrite (sidebar_size _ (live_completed _ HL))).
  change (current_section (display_progress_sidebar (view st)))
    with (current_section (view st)).
  change (sections (display_progress_sidebar (view st)))
    with (sections (view st)).
  change (current_question_index (display_progress_sidebar (view st)))
    with (current_question_index (view st)).
  rewrite Hcs. cbn [negb orb].
  destruct (editing_mode (display_progress_sidebar (view st))) eqn:Hedit.
  { destruct Hdone. by apply (live_editing _ HL). }
  rewrite Hs. cbn [mbind option_bind].
  rewrite bool_decide_eq_true_2 by done.
  eexists. split; [reflexivity|]. simpl.
  assert (followup_mode (view st) = false) as Hmode.
  { destruct (followup_mode (view st)) eqn:Hm; [|done].
    destruct (live_followup _ HL Hm) as [_ [q Hq]].
    unfold question_at in Hq. rewrite Hs in Hq. simpl in Hq.
    apply lookup_lt_Some in Hq. lia. }
  split_and!; try done.
  - by apply (live_normal _ HL).
  - apply elem_of_union_r, elem_of_done_sections. exists questions.
    split; [done|]. apply section_done_lookup. intros j y Hy.
    apply (live_cursor _ HL Hcs j y).
    + unfold question_at. by rewrite Hs.
    + apply lookup_lt_Some in Hy. lia.
Qed.

End Questions.

(** ** load_questions_from_json *)

Lemma replace_from_skip old new n s :
  length s ≤ n → Loader.replace_from old new n s = [].
Proof.
  revert n. induction s as [|c s IH]; intros n Hn; [done|]. simpl in *.
  destruct n as [|n]; [lia|]. apply IH. lia.
Qed.

Lemma replace_absent c old new s :
  mem_char c s = false → Loader.replace (c :: old) new s = s.
Proof.
  unfold Loader.replace, mem_char.
  induction s as [|a s IH]; [done|]. simpl.
  intros [Ha Hs]%orb_false_elim. rewrite Ha. simpl. by rewrite IH.
Qed.

Lemma replace_suffix c old new x :
  mem_char c x = false →
  Loader.replace (c :: old) new (x ++ c :: old) = x ++ new.
Proof.
  unfold Loader.replace, mem_char.
  induction x as [|a x IH].
  - intros _. cbn [app Loader.replace_from].
    rewrite <- (app_nil_r (c :: old)) at 2. rewrite startswith_app.
    rewrite replace_from_skip by (simpl; lia). by rewrite app_nil_r.
  - simpl. intros [Ha Hx]%orb_false_elim. rewrite Ha. simpl.
    by rewrite IH.
Qed.

Lemma ascii_title_from_no_space cased s :
  mem_char Loader.space s = false →
  mem_char Loader.space (Loader.ascii_title_from cased s) = false.
Proof.
  unfold mem_char. revert cased.
  induction s as [|c s IH]; intros cased; [done|].
  cbn [existsb Loader.ascii_title_from].
  intros [Hc Hs]%orb_false_elim. apply N.eqb_neq in Hc.
  unfold Loader.is_upper, Loader.is_lower, Loader.space in *.
  destruct (N.leb_spec 65 c), (N.leb_spec c 90), (N.leb_spec 97 c),
    (N.leb_spec c 122), cased; cbn [andb existsb];
    rewrite IH by done; rewrite orb_false_r; apply N.eqb_neq; lia.
Qed.

Lemma ascii_title_no_space s :
  mem_char Loader.space s = false →
  mem_char Loader.space (Loader.ascii_title s) = false.
Proof. apply ascii_title_from_no_space. Qed.

(** X22: a key made of one word and [_questions] (no underscore and no
    space in the word, as in gl_questions) gives the section the name
    [title(word)]: the renaming of lines 34 to 47 is not applied to it,
    since every name it tests for holds a space. *)
Theorem plain_keys_are_not_renamed title word :
  (∀ s, mem_char Loader.space s = false →
        mem_char Loader.space (title s) = false) →
  mem_char Loader.underscore word = false →
  mem_char Loader.space word = false →
  Loader.section_name title (word ++ lit "_questions") = title word.
Proof.
  intros Htitle Hu Hs. unfold Loader.section_name. cbv zeta.
  change (lit "_questions") with (Loader.underscore :: lit "questions").
  rewrite (replace_suffix _ _ [] word Hu), app_nil_r.
  rewrite (replace_absent _ [] _ word Hu).
  pose proof (Htitle word Hs) as Hno.
  repeat case_bool_decide; try done;
    match goal with
    | H : title word = _ |- _ => rewrite H in Hno; vm_compute in Hno;
                                 discriminate Hno
    end.
Qed.

Lemma plain_keys_are_not_renamed_witness :
  Loader.section_name Loader.ascii_title (lit "gl" ++ lit "_questions")
  = Loader.ascii_title (lit "gl").
Proof.
  apply (plain_keys_are_not_renamed Loader.ascii_title (lit "gl")).
  - exact ascii_title_no_space.
  - vm_compute. reflexivity.
  - vm_compute. reflexivity.
Defined.

Lemma load_sections_app title items item :
  Loader.load_sections title (items ++ [item])
  = <[Loader.section_name title item.1 := item.2]>
      (Loader.load_sections title items).
Proof. unfold Loader.load_sections. by rewrite fold_left_app. Qed.

(** X23: the loader keeps one list of questions per section name.  Every
    section it returns comes from a key of the questionnaire, and when
    several keys are cleaned to the same name the questions of the last
    one replace those of the others. *)
Theorem equally_named_keys_keep_the_last title before key questions after :
  Forall (fun item =>
            Loader.section_name title item.1 ≠ Loader.section_name title key)
    after →
  Loader.load_sections title (before ++ (key, questions) :: after)
    !! Loader.section_name title key = Some questions
  ∧ ∀ name found,
      Loader.load_sections title (before ++ (key, questions) :: after)
        !! name = Some found →
      ∃ item,
        item ∈ before ++ (key, questions) :: after
        ∧ Loader.section_name title item.1 = name
        ∧ item.2 = found.
Proof.
  intros Hafter. split.
  - induction after as [|item after IH] using rev_ind.
    + by rewrite load_sections_app, lookup_insert_eq.
    + apply Forall_app in Hafter as [Hafter Hitem].
      apply Forall_inv in Hitem. cbv beta in Hitem.
      rewrite app_comm_cons, app_assoc, load_sections_app.
      rewrite lookup_insert_ne by exact Hitem. by apply IH.
  - generalize (before ++ (key, questions) :: after). clear.
    intros items.
    induction items as [|item items IH] using rev_ind; intros name found.
    + unfold Loader.load_sections. simpl. by rewrite lookup_empty.
    + rewrite load_sections_app.
      destruct (decide (Loader.section_name title item.1 = name)) as [<-|Hne].
      * rewrite lookup_insert_eq. intros [= <-]. exists item.
        split; [|done]. apply elem_of_app. right. apply list_elem_of_here.
      * rewrite lookup_insert_ne by done. intros Hfound.
        destruct (IH _ _ Hfound) as (item' & Hin & Hname & Hval).
        exists item'. split; [|done]. apply elem_of_app. by left.
Qed.

Lemma equally_named_keys_keep_the_last_witness :
  Loader.load_sections Loader.ascii_title two_keys
    !! Loader.section_name Loader.ascii_title (lit "ap")
  = Some (JArray [])
  ∧ Loader.section_name Loader.ascii_title (lit "ap_questions")
    = Loader.section_name Loader.ascii_title (lit "ap").
Proof.
  split; [|vm_compute; reflexivity].
  apply (equally_named_keys_keep_the_last Loader.ascii_title
           [(lit "ap_questions",
             JArray [JString (lit "Who approves payments?")])]
           (lit "ap") (JArray []) []).
  constructor.
Defined.

(** ** The theorems above on the concrete session *)

Example at_asking_played :
  session Decoder.json_loads plain_text to_asking (Unset None)
  = Some at_asking.
Proof. played. Qed.

Example at_summary_played :
  session Decoder.json_loads plain_text to_summary (Unset None)
  = Some at_summary.
Proof. played. Qed.

Example at_second_question_played :
  session Decoder.json_loads plain_text to_second_question (Unset None)
  = Some at_second_question.
Proof. played. Qed.

Example at_second_followup_played :
  session Decoder.json_loads plain_text to_second_followup (Unset None)
  = Some at_second_followup.
Proof. played. Qed.

Lemma at_asking_reachable :
  reachable Decoder.json_loads plain_text at_asking.
Proof.
  apply (play_reachable to_asking); [|exact at_asking_played].
  repeat constructor.
Qed.

Lemma at_summary_reachable :
  reachable Decoder.json_loads plain_text at_summary.
Proof.
  apply (play_reachable to_summary); [|exact at_summary_played].
  repeat constructor.
Qed.

Lemma at_second_question_reachable :
  reachable Decoder.json_loads plain_text at_second_question.
Proof.
  apply (play_reachable to_second_question);
    [|exact at_second_question_played].
  repeat constructor.
Qed.

Lemma at_second_followup_reachable :
  reachable Decoder.json_loads plain_text at_second_followup.
Proof.
  apply (play_reachable to_second_followup);
    [|exact at_second_followup_played].
  repeat constructor.
Qed.

Lemma stored_response (s : SessionState) section i r :
  response_at s section i = Some r → responses s ≠ ∅.
Proof.
  unfold response_at. intros Hr He. rewrite He, lookup_empty in Hr. done.
Qed.

Lemma followup_answers_follow_questions_witness :
  length (followup_answers (view at_exhausted))
  = current_followup_index (view at_exhausted)
  ∧ current_followup_index (view at_exhausted)
    ≤ length (followup_questions (view at_exhausted))
  ∧ ∀ i fa,
      followup_answers (view at_exhausted) !! i = Some fa →
      followup_questions (view at_exhausted) !! i = Some (fa_question fa)
      ∧ truthy (fa_answer fa) = true.
Proof.
  exact (followup_answers_follow_questions Decoder.json_loads plain_text
           at_exhausted at_exhausted_reachable).
Defined.

Lemma next_collects_answer_witness :
  ∃ s',
    main Decoder.json_loads plain_text (world Raises)
      (Some (Next (lit " R1 "))) at_asking
    = Some (Keys s', [Ask (JString (lit "Q1"))])
    ∧ followup_answers s'
      = [{| fa_question := JString (lit "Q1"); fa_answer := lit "R1" |}]
    ∧ current_followup_index s' = 1
    ∧ responses s' = ∅.
Proof.
  destruct (next_collects_answer Decoder.json_loads plain_text (world Raises)
              at_asking (lit " R1 ") at_asking_reachable)
    as (fq & s' & out & Hfq & Hrun & Hresp & _ & _ & _ & _ & _ & _ & Hnext);
    [vm_compute; reflexivity | vm_compute; reflexivity | vm_compute; lia |].
  assert (fq = JString (lit "Q1")) as ->.
  { assert (Some fq = Some (JString (lit "Q1"))) as [= ->]; [|reflexivity].
    rewrite <- Hfq. vm_compute. reflexivity. }
  change (truthy (strip (lit " R1 "))) with true in Hnext.
  destruct Hnext as (Hanswers & Hindex & ->).
  exists s'. split; [exact Hrun|].
  split; [rewrite Hanswers; vm_compute; reflexivity|].
  split; [rewrite Hindex; vm_compute; reflexivity|].
  rewrite Hresp. vm_compute. reflexivity.
Defined.

Lemma use_original_drops_followups_witness :
  followup_answers (view at_second_followup)
  = [{| fa_question := JString (lit "Q1"); fa_answer := lit "R1" |}]
  ∧ ∃ s' out,
      main Decoder.json_loads plain_text (world Raises) (Some UseOriginal)
        at_second_followup = Some (Keys s', out)
      ∧ response_at s' Company 0
        = Some {| answer := lit "A"; followup := [];
                  timestamp := lit "2024-05-01T10:00:00" |}
      ∧ current_question_index s' = 1
      ∧ followup_mode s' = false
      ∧ followup_cleared s'.
Proof.
  split; [vm_compute; reflexivity|].
  destruct (use_original_drops_followups Decoder.json_loads plain_text
              (world Raises) at_second_followup at_second_followup_reachable)
    as (s' & out & Hrun & Hresp & _ & _ & Hindex & Hmode & Hclear);
    [vm_compute; reflexivity | vm_compute; reflexivity | vm_compute; lia |].
  exists s', out. split; [exact Hrun|]. split; [exact Hresp|].
  split; [rewrite Hindex; vm_compute; reflexivity|].
  split; [exact Hmode | exact Hclear].
Defined.

Lemma accept_final_stores_all_followups_witness :
  ∃ s' out,
    main Decoder.json_loads plain_text (world Raises) (Some AcceptFinal)
      at_exhausted = Some (Keys s', out)
    ∧ response_at s' Company 0
      = Some {| answer :=
                  lit "A" ++ [nl; nl] ++ lit "Additional Details:" ++ [nl]
                  ++ bullet ++ lit " Q1: R1" ++ [nl]
                  ++ bullet ++ lit " Q2: R2" ++ [nl];
                followup :=
                  [{| fa_question := JString (lit "Q1");
                      fa_answer := lit "R1" |};
                   {| fa_question := JString (lit "Q2");
                      fa_answer := lit "R2" |}];
                timestamp := lit "2024-05-01T10:00:00" |}
    ∧ fa_question <$> followup_answers (view at_exhausted)
      = followup_questions (view at_exhausted)
    ∧ current_question_index s' = 1
    ∧ followup_mode s' = false.
Proof.
  destruct (accept_final_stores_all_followups Decoder.json_loads plain_text
              (world Raises) at_exhausted at_exhausted_reachable)
    as (s' & out & Hrun & Hresp & Hall & _ & _ & Hindex & Hmode & _);
    [vm_compute; reflexivity | vm_compute; reflexivity | vm_compute; lia |].
  exists s', out. split; [exact Hrun|].
  split; [etransitivity; [exact Hresp|]; vm_compute; reflexivity|].
  split; [exact Hall|].
  split; [rewrite Hindex; vm_compute; reflexivity | exact Hmode].
Defined.

Lemma skip_stores_skipped_witness :
  ∃ s',
    main Decoder.json_loads plain_text (world Raises) (Some Skip) at_question
    = Some (Keys s', [])
    ∧ response_at s' Company 0
      = Some {| answer := lit "Skipped"; followup := [];
                timestamp := lit "2024-05-01T10:00:00" |}
    ∧ question_at s' Company 0
      = Some (mark_answered (ask "What is the company name?"))
    ∧ current_question_index s' = 1.
Proof.
  destruct (skip_stores_skipped Decoder.json_loads plain_text (world Raises)
              at_question (ask "What is the company name?")
              at_question_reachable)
    as (s' & Hrun & Hresp & Hq & _ & Hindex & _);
    [vm_compute; reflexivity..|].
  exists s'. split; [exact Hrun|]. split; [exact Hresp|].
  split; [exact Hq|]. rewrite Hindex. vm_compute. reflexivity.
Defined.

Lemma runs_only_set_flags_witness :
  dom (sections (view at_restart)) = dom (sections (view at_summary))
  ∧ ∀ name i,
      question_at (view at_restart) name i
      = question_at (view at_summary) name i
      ∨ question_at (view at_restart) name i
        = mark_answered <$> question_at (view at_summary) name i.
Proof.
  eapply (runs_only_set_flags Decoder.json_loads plain_text (world Raises)
            (Some StartNew) at_summary at_restart).
  - exact at_summary_reachable.
  - eapply (loaded_bank _ Company). vm_compute. reflexivity.
  - vm_compute. reflexivity.
Defined.

Lemma responses_are_write_once_witness :
  ∃ r,
    response_at (view at_second_question) Company 0 = Some r
    ∧ ∃ st' out,
        main Decoder.json_loads plain_text (world Raises)
          (Some (SubmitAnswer (lit "Postgres"))) at_second_question
        = Some (st', out)
        ∧ (response_at (view st') Company 0 = Some r
           ∨ (Some (SubmitAnswer (lit "Postgres")) = Some StartNew
              ∧ st' = Unset (Some (sections (view at_second_question))))).
Proof.
  eexists. split; [vm_compute; reflexivity|].
  do 2 eexists. split; [vm_compute; reflexivity|].
  eapply (responses_are_write_once Decoder.json_loads plain_text
            (world Raises) (Some (SubmitAnswer (lit "Postgres")))
            at_second_question).
  - exact at_second_question_reachable.
  - vm_compute. reflexivity.
  - vm_compute. reflexivity.
Defined.

Lemma summary_is_final_witness :
  main Decoder.json_loads plain_text (world Raises) (Some StartNew) at_restart
  = display_summary (lit "2024-05-01T10:00:00") (Some StartNew)
      (display_progress_sidebar (view at_restart))
  ∧ ∃ st' out,
      main Decoder.json_loads plain_text (world Raises) (Some StartNew)
        at_restart = Some (st', out)
      ∧ Notice LSuccess ∈ out
      ∧ sections (view st') = sections (view at_restart)
      ∧ (Some StartNew ≠ Some StartNew →
         responses (view st') = responses (view at_restart)).
Proof.
  apply (summary_is_final Decoder.json_loads plain_text (world Raises)
           (Some StartNew) at_restart at_restart_reachable).
  - vm_compute. reflexivity.
  - eapply (loaded_bank _ Company). vm_compute. reflexivity.
  - vm_compute. reflexivity.
Defined.

Lemma edit_leads_back_to_summary_witness :
  main Decoder.json_loads plain_text (world Raises)
    (Some (SaveChanges (lit "Acme"))) at_editing
  = display_summary (lit "2024-05-01T10:00:00")
      (Some (SaveChanges (lit "Acme")))
      (display_progress_sidebar (view at_editing))
  ∧ (Some (SaveChanges (lit "Acme")) ≠ Some StartNew →
     ∃ s' out,
       main Decoder.json_loads plain_text (world Raises)
         (Some (SaveChanges (lit "Acme"))) at_editing = Some (Keys s', out)
       ∧ editing_mode s' = true
       ∧ responses s' = responses (view at_editing)).
Proof.
  apply (edit_leads_back_to_summary Decoder.json_loads plain_text
           (world Raises) (Some (SaveChanges (lit "Acme"))) at_editing
           at_editing_reachable).
  - vm_compute. reflexivity.
  - vm_compute. reflexivity.
Defined.

Lemma report_entries_are_responses_witness :
  ∃ st' r,
    main Decoder.json_loads plain_text (world Raises) None at_summary
    = Some (st', [Notice LSuccess; Download r])
    ∧ total_questions r = 2
    ∧ (length <$> questionnaire_responses r !! Company) = Some 2
    ∧ (∀ i e,
         (questionnaire_responses r !! Company ≫= (.!! i)) = Some e →
         r_answer e = lit "Skipped").
Proof.
  destruct (report_entries_are_responses Decoder.json_loads plain_text
              (world Raises) at_summary at_summary_reachable)
    as (st' & r & Hrun & Htotal & Hentries & Hall).
  { vm_compute. reflexivity. }
  { eapply (loaded_bank _ Company). vm_compute. reflexivity. }
  { vm_compute. reflexivity. }
  exists st', r. split; [exact Hrun|].
  split; [rewrite Htotal; vm_compute; reflexivity|].
  assert (responses (view at_summary) ≠ ∅) as Hsome.
  { eapply (stored_response _ Company 0). vm_compute. reflexivity. }
  destruct (Hall Hsome Company
              [mark_answered (ask "What is the company name?");
               mark_answered (ask "Which database do you use?")])
    as (entries & Hlookup & Hlen).
  { vm_compute. reflexivity. }
  rewrite Hlookup. simpl. split; [by rewrite Hlen|].
  intros i e He.
  destruct (Hentries Company entries i e Hlookup He)
    as (q & resp & Hq & Hresp & ->).
  simpl. destruct i as [|[|i]].
  - assert (Some resp = response_at (view at_summary) Company 0) as Heq
      by (by rewrite Hresp).
    vm_compute in Heq. by injection Heq as ->.
  - assert (Some resp = response_at (view at_summary) Company 1) as Heq
      by (by rewrite Hresp).
    vm_compute in Heq. by injection Heq as ->.
  - vm_compute in Hq. discriminate Hq.
Defined.

Lemma question_index_counts_answers_witness :
  (∀ j q,
     [mark_answered (ask "What is the company name?");
      ask "Which database do you use?"] !! j = Some q →
     (q_answered q = true ↔ j < 1))
  ∧ current_question_index (view at_second_question) = 1.
Proof.
  destruct (question_index_counts_answers Decoder.json_loads plain_text
              at_second_question Company
              [mark_answered (ask "What is the company name?");
               ask "Which database do you use?"]
              at_second_question_reachable)
    as [Hprefix Hindex].
  { vm_compute. reflexivity. }
  split; [exact Hprefix|].
  destruct Hindex as [-> _]; vm_compute; reflexivity.
Defined.

Lemma selection_lists_unfinished_sections_witness :
  main Decoder.json_loads plain_text (world Raises) None at_resume
  = display_section_selection None
      (display_progress_sidebar (view at_resume))
  ∧ (∀ name,
       name ∈ dom (sections (view at_resume))
              ∖ completed_sections (display_progress_sidebar (view at_resume))
       ↔ ∃ questions,
           sections (view at_resume) !! name = Some questions
           ∧ ¬ section_done questions)
  ∧ dom (sections (view at_resume))
    ∖ completed_sections (display_progress_sidebar (view at_resume)) ≠ ∅.
Proof.
  apply (selection_lists_unfinished_sections Decoder.json_loads plain_text
           (world Raises) None at_resume at_resume_reachable).
  - vm_compute. reflexivity.
  - eapply (loaded_bank _ Company). vm_compute. reflexivity.
  - intros Hdone.
    assert (Company ∈ done_sections (sections (view at_resume))) as Hin.
    { rewrite Hdone. apply elem_of_dom. eexists. vm_compute. reflexivity. }
    apply elem_of_done_sections in Hin as (questions & Hs & Hd).
    assert (questions
            = [mark_answered (ask "What is the company name?");
               ask "Which database do you use?"]) as ->.
    { assert (Some questions
              = Some [mark_answered (ask "What is the company name?");
                      ask "Which database do you use?"]) as [= ->];
        [|reflexivity].
      rewrite <- Hs. vm_compute. reflexivity. }
    vm_compute in Hd. discriminate Hd.
  - vm_compute. reflexivity.
Defined.

Lemma submit_follows_verdict_witness :
  ∃ s' out,
    main Decoder.json_loads plain_text (world (Text two_questions))
      (Some (SubmitAnswer (lit " A "))) at_question = Some (Keys s', out)
    ∧ responses s' = ∅
    ∧ current_question_index s' = 0
    ∧ followup_mode s' = true
    ∧ followup_questions s' = [JString (lit "Q1"); JString (lit "Q2")]
    ∧ original_answer s' = lit "A".
Proof.
  destruct (submit_follows_verdict Decoder.json_loads plain_text
              (world (Text two_questions)) at_question
              (ask "What is the company name?") (lit " A ")
              at_question_reachable)
    as (s' & out & Hrun & _ & Hverdict);
    [vm_compute; reflexivity..|].
  change (truthy (strip (lit " A "))) with true in Hverdict.
  cbv zeta in Hverdict.
  assert ((validate_response Decoder.json_loads
             (Some (reply (world (Text two_questions))))
             (q_question (ask "What is the company name?")) (lit " A ")
             (q_context (ask "What is the company name?"))).1
          = (false, [JString (lit "Q1"); JString (lit "Q2")])) as Hv
    by (vm_compute; reflexivity).
  rewrite Hv in Hverdict. cbn [fst snd] in Hverdict.
  destruct Hverdict as (Hresp & Hindex & Hmode & Hqs & _ & _ & Horig).
  exists s', out. split; [exact Hrun|].
  split; [rewrite Hresp; vm_compute; reflexivity|].
  split; [rewrite Hindex; vm_compute; reflexivity|].
  split; [exact Hmode|]. split; [exact Hqs|].
  rewrite Horig. vm_compute. reflexivity.
Defined.

Lemma two_sections_fresh : fresh_bank two_sections.
Proof.
  intros name questions H. unfold two_sections in H.
  apply lookup_insert_Some in H as [[_ <-]|[_ H]]; [repeat constructor|].
  apply lookup_singleton_Some in H as [_ <-]. repeat constructor.
Qed.

Example at_finished_played :
  session Decoder.json_loads plain_text to_finished (Unset None)
  = Some at_finished.
Proof. played. Qed.

Lemma at_finished_reachable :
  reachable Decoder.json_loads plain_text at_finished.
Proof.
  eapply session_reachable; [apply reach_new| |exact at_finished_played].
  repeat constructor; exact two_sections_fresh.
Qed.

Lemma finished_section_is_left_witness :
  ∃ s',
    main Decoder.json_loads plain_text world_two (Some Continue) at_finished
    = Some (Keys s', [Notice LSuccess])
    ∧ current_section s' = []
    ∧ current_question_index s' = 0
    ∧ Company ∈ completed_sections s'
    ∧ responses s' = responses (view at_finished).
Proof.
  destruct (finished_section_is_left Decoder.json_loads plain_text world_two
              (Some Continue) at_finished
              [mark_answered (ask "What is the company name?")]
              at_finished_reachable)
    as (s' & Hrun & Hcs & Hindex & _ & _ & Hin & Hresp & _).
  { vm_compute. reflexivity. }
  { vm_compute. reflexivity. }
  { vm_compute. reflexivity. }
  { vm_compute. lia. }
  { intros Hdone.
    assert (Security ∈ done_sections (sections (view at_finished))) as Hsec.
    { rewrite Hdone. apply elem_of_dom. eexists. vm_compute. reflexivity. }
    apply elem_of_done_sections in Hsec as (questions & Hs & Hd).
    assert (questions = [ask "Who grants access?"]) as ->.
    { assert (Some questions = Some [ask "Who grants access?"]) as [= ->];
        [|reflexivity].
      rewrite <- Hs. vm_compute. reflexivity. }
    vm_compute in Hd. discriminate Hd. }
  exists s'. split; [exact Hrun|]. split; [exact Hcs|].
  split; [exact Hindex|]. split; [exact Hin | exact Hresp].
Defined.
